(** * myshoes: datastore backends and the Recoverer's pending-run sweep

    A shallow embedding of
      - [pkg/datastore/mysql/target.go]   (package mysql),
      - the in-memory datastore           (package memory),
      - the pending-run helpers           (package datastore),
    as they appear in the sources, together with the properties the
    specification states about them.

    Conventions of the embedding
      - a Go [map[uuid.UUID]T] is a [gmap uuid.UUID T];
      - [for ... range m] over a Go map visits every entry exactly once, in
        an order the language leaves unspecified: the runtime's choice is a
        section variable, constrained by [map_range];
      - a method of [*Memory] is a state transformer on the three maps
        (the mutex only makes each method atomic, which state passing
        already gives);
      - a Go result of a pointer and an error is a pair of options, [None] for [nil];
      - [time.Time] is the instant in nanoseconds, [time.Duration] the
        signed 64-bit count of nanoseconds. *)

From Stdlib Require Import QArith Lqa.
From stdpp Require Import gmap strings.

Open Scope Z_scope.

(** ** Go runtime values shared by the packages *)

(** [uuid.UUID] is a 16-byte array used only as a map key and compared for
    equality: it is represented by the number its bytes spell. *)
Module uuid.
Definition UUID : Type := N.
End uuid.

(** [time.Time], as the instant in nanoseconds since the epoch. *)
Definition Time : Type := Z.

(** [t.Before(u)] and [t.After(u)]. *)
Definition Before (t u : Time) : bool := bool_decide (t < u).
Definition After (t u : Time) : bool := bool_decide (u < t).

(** Go's [error] values that occur in the three packages. *)
Inductive error : Type :=
  | ErrNotFound                       (* datastore.ErrNotFound *)
  | ErrNoRows                         (* sql.ErrNoRows *)
  | ErrNew (msg : string)             (* fmt.Errorf without a wrapped error *)
  | ErrWrap (msg : string) (e : error). (* fmt.Errorf("...: %w", e) *)

#[global] Instance error_eq_dec : EqDecision error.
Proof. solve_decision. Defined.

(** [errors.Is(err, target)]: walks the chain of wrapped errors. *)
Fixpoint errors_Is (err target : error) : bool :=
  if bool_decide (err = target) then true
  else match err with
       | ErrWrap _ e => errors_Is e target
       | _ => false
       end.

(** [sql.NullString]. *)
Module NullString.
Record t : Type := Build { String : string; Valid : bool }.
#[global] Instance eq_dec : EqDecision t.
Proof. solve_decision. Defined.
End NullString.

(** ** Package datastore: the entities

    The declarations of [datastore.Target], [datastore.Job] and
    [datastore.Runner] are in other files of the package; the fields the
    code reads and writes keep their names, the others follow the data
    model of the specification. *)

(** Modelled from the spec: [datastore.ResourceType], the symbolic size of
    an instance ("nano ... xlarge"). *)
Module ResourceType.
Inductive t : Type := Nano | Micro | Small | Medium | Large | XLarge.
#[global] Instance eq_dec : EqDecision t.
Proof. solve_decision. Defined.
End ResourceType.

(** [datastore.TargetStatus] and [datastore.RunnerStatus] are string types. *)
Definition TargetStatus : Type := string.
Definition RunnerStatus : Type := string.

(** Modelled from the spec: the status values of a target and of a runner
    that the properties below name. *)
Definition TargetStatusDeleted : TargetStatus := "deleted".
Definition RunnerStatusDeleted : RunnerStatus := "deleted".

(** Modelled from the spec: [datastore.Target]. The field names are the ones
    the two backends use. *)
Module Target.
Record t : Type := Build {
  UUID : uuid.UUID;
  Scope : string;
  GHEDomain : NullString.t;
  GitHubPersonalToken : string;
  GitHubToken : string;
  TokenExpiredAt : Time;
  ResourceType : ResourceType.t;
  RunnerUser : string;
  ProviderURL : NullString.t;
  Status : TargetStatus;
  StatusDescription : NullString.t;
  CreatedAt : Time;
  UpdatedAt : Time
}.
#[global] Instance eq_dec : EqDecision t.
Proof. solve_decision. Defined.
End Target.

(** Modelled from the spec: [datastore.Job] ("stable id; owning target id;
    CI-domain; repository full-name; raw webhook payload; optional
    check-run id; timestamp"). The CI work a job stands for is identified
    by its payload and, when known, by [CheckRunID]. *)
Module Job.
Record t : Type := Build {
  UUID : uuid.UUID;
  TargetID : uuid.UUID;
  GHEDomain : NullString.t;
  Repository : string;
  CheckEventJSON : string;
  CheckRunID : option Z;
  CreatedAt : Time
}.
#[global] Instance eq_dec : EqDecision t.
Proof. solve_decision. Defined.
End Job.

(** Modelled from the spec: [datastore.Runner] ("stable id; owning target
    id; shoes-type + cloud id; registration name; repository URL; resource
    class; optional provider URL; status; timestamps"). The code reads
    [UUID], [TargetID], [RepositoryURL] and [CreatedAt]. *)
Module Runner.
Record t : Type := Build {
  UUID : uuid.UUID;
  TargetID : uuid.UUID;
  ShoesType : string;
  CloudID : string;
  Name : string;
  RepositoryURL : string;
  ResourceType : ResourceType.t;
  ProviderURL : NullString.t;
  Status : RunnerStatus;
  CreatedAt : Time;
  RunningAt : option Time;
  DeletedAt : option Time
}.
#[global] Instance eq_dec : EqDecision t.
Proof. solve_decision. Defined.
End Runner.

(** ** Iterating over a Go map *)

(** [for k, v := range m] visits each entry of [m] once, in an order chosen
    by the runtime. The choice is a function [range] from the map to the
    sequence of visited entries; [map_range range] says that it is a
    legitimate one. *)
Definition map_range (range : ∀ V : Type, gmap uuid.UUID V → list (uuid.UUID * V)) : Prop :=
  ∀ (V : Type) (m : gmap uuid.UUID V), range V m ≡ₚ map_to_list m.

(** The same for the keys of a [map[string]struct{}], a set of strings. *)
Definition set_range (range : gset string → list string) : Prop :=
  ∀ s : gset string, range s ≡ₚ elements s.

(** ** Package memory: the in-memory datastore *)

Module Memory.

(** [type Memory struct]: the three maps (the mutex carries no data). *)
Record t : Type := Build {
  targets : gmap uuid.UUID Target.t;
  jobs : gmap uuid.UUID Job.t;
  runners : gmap uuid.UUID Runner.t
}.

(** A method of [*Memory] returning a value of type [A]. *)
Definition M (A : Type) : Type := t → A * t.

#[global] Instance M_ret : MRet M := λ A a m, (a, m).
#[global] Instance M_bind : MBind M :=
  λ A B f c m, let '(a, m') := c m in f a m'.

Definition get : M t := λ m, (m, m).
Definition put (m' : t) : M unit := λ _, (tt, m').

Definition set_targets (ts : gmap uuid.UUID Target.t) : M unit :=
  m ← get; put (Build ts (jobs m) (runners m)).
Definition set_jobs (js : gmap uuid.UUID Job.t) : M unit :=
  m ← get; put (Build (targets m) js (runners m)).
Definition set_runners (rs : gmap uuid.UUID Runner.t) : M unit :=
  m ← get; put (Build (targets m) (jobs m) rs).

(** [New]: three empty maps. *)
Definition New : t * option error := (Build ∅ ∅ ∅, None).

(** [CreateTarget]: [m.targets[target.UUID] = target]. *)
Definition CreateTarget (target : Target.t) : M (option error) :=
  m ← get;
  set_targets (<[Target.UUID target := target]> (targets m));;
  mret None.

(** [GetTarget]. *)
Definition GetTarget (id : uuid.UUID) : M (option Target.t * option error) :=
  m ← get;
  match targets m !! id with
  | None => mret (None, Some ErrNotFound)
  | Some t => mret (Some t, None)
  end.

(** [DeleteTarget]. *)
Definition DeleteTarget (id : uuid.UUID) : M (option error) :=
  m ← get;
  set_targets (delete id (targets m));;
  mret None.

(** [UpdateTargetStatus]. *)
Definition UpdateTargetStatus (targetID : uuid.UUID) (newStatus : TargetStatus)
    (description : string) : M (option error) :=
  m ← get;
  match targets m !! targetID with
  | None => mret (Some (ErrNew "not found"))
  | Some t =>
      let valid := if bool_decide (description ≠ EmptyString) then true else false in
      let t' :=
        Target.Build (Target.UUID t) (Target.Scope t) (Target.GHEDomain t)
          (Target.GitHubPersonalToken t) (Target.GitHubToken t)
          (Target.TokenExpiredAt t) (Target.ResourceType t)
          (Target.RunnerUser t) (Target.ProviderURL t)
          newStatus (NullString.Build description valid)
          (Target.CreatedAt t) (Target.UpdatedAt t) in
      set_targets (<[targetID := t']> (targets m));;
      mret None
  end.

(** [UpdateToken]. *)
Definition UpdateToken (targetID : uuid.UUID) (newToken : string)
    (newExpiredAt : Time) : M (option error) :=
  m ← get;
  match targets m !! targetID with
  | None => mret (Some (ErrNew "not found"))
  | Some t =>
      let t' :=
        Target.Build (Target.UUID t) (Target.Scope t) (Target.GHEDomain t)
          (Target.GitHubPersonalToken t) newToken newExpiredAt
          (Target.ResourceType t) (Target.RunnerUser t)
          (Target.ProviderURL t) (Target.Status t)
          (Target.StatusDescription t)
          (Target.CreatedAt t) (Target.UpdatedAt t) in
      set_targets (<[targetID := t']> (targets m));;
      mret None
  end.

(** [UpdateTargetParam]. *)
Definition UpdateTargetParam (targetID : uuid.UUID)
    (newResourceType : ResourceType.t) (newProviderURL : string)
  : M (option error) :=
  m ← get;
  match targets m !! targetID with
  | None => mret (Some (ErrNew "not found"))
  | Some t =>
      let t' :=
        Target.Build (Target.UUID t) (Target.Scope t) (Target.GHEDomain t)
          (Target.GitHubPersonalToken t) (Target.GitHubToken t)
          (Target.TokenExpiredAt t) newResourceType
          (Target.RunnerUser t) (NullString.Build newProviderURL true)
          (Target.Status t) (Target.StatusDescription t)
          (Target.CreatedAt t) (Target.UpdatedAt t) in
      set_targets (<[targetID := t']> (targets m));;
      mret None
  end.

(** [EnqueueJob]: [m.jobs[job.UUID] = job]. *)
Definition EnqueueJob (job : Job.t) : M (option error) :=
  m ← get;
  set_jobs (<[Job.UUID job := job]> (jobs m));;
  mret None.

(** [DeleteJob]. *)
Definition DeleteJob (id : uuid.UUID) : M (option error) :=
  m ← get;
  set_jobs (delete id (jobs m));;
  mret None.

(** [CreateRunner]. *)
Definition CreateRunner (runner : Runner.t) : M (option error) :=
  m ← get;
  set_runners (<[Runner.UUID runner := runner]> (runners m));;
  mret None.

(** [GetRunner]. *)
Definition GetRunner (id : uuid.UUID) : M (option Runner.t * option error) :=
  m ← get;
  match runners m !! id with
  | None => mret (None, Some ErrNotFound)
  | Some r => mret (Some r, None)
  end.

(** [DeleteRunner]: [delete(m.runners, id)]; the arguments [deletedAt] and
    [reason] are not used by the body. *)
Definition DeleteRunner (id : uuid.UUID) (deletedAt : Time) (reason : RunnerStatus)
  : M (option error) :=
  m ← get;
  set_runners (delete id (runners m));;
  mret None.

(** [GetLock]. *)
Definition GetLock : M (option error) := mret None.

Section Lock.
(** The constant [datastore.IsNotLocked], declared in another file of
    package datastore. *)
Variable IsNotLocked : string.

(** [IsLocked]. *)
Definition IsLocked : M (string * option error) := mret (IsNotLocked, None).
End Lock.

(** The methods that loop over one of the maps. *)
Section Range.
Variable range : ∀ V : Type, gmap uuid.UUID V → list (uuid.UUID * V).

(** The loop of [GetTargetByScope]: the first visited target whose scope
    is the requested one is returned. *)
Fixpoint scanScope (visited : list (uuid.UUID * Target.t)) (scope : string)
  : option Target.t * option error :=
  match visited with
  | [] => (None, Some ErrNotFound)
  | (_, t) :: rest =>
      if bool_decide (Target.Scope t = scope) then (Some t, None)
      else scanScope rest scope
  end.

(** [GetTargetByScope(ctx, scope)]. *)
Definition GetTargetByScope (scope : string)
  : M (option Target.t * option error) :=
  m ← get;
  mret (scanScope (range _ (targets m)) scope).

(** [ListTargets]. *)
Definition ListTargets : M (list Target.t * option error) :=
  m ← get;
  mret ((range _ (targets m)).*2, None).

(** [ListJobs]. *)
Definition ListJobs : M (list Job.t * option error) :=
  m ← get;
  mret ((range _ (jobs m)).*2, None).

(** [ListRunners]. *)
Definition ListRunners : M (list Runner.t * option error) :=
  m ← get;
  mret ((range _ (runners m)).*2, None).

(** [ListRunnersByTargetID]. *)
Definition ListRunnersByTargetID (targetID : uuid.UUID)
  : M (list Runner.t * option error) :=
  m ← get;
  mret (filter (λ r, Runner.TargetID r = targetID) ((range _ (runners m)).*2),
        None).

(** [ListRunnersLogByUntil]. *)
Definition ListRunnersLogByUntil (until : Time)
  : M (list Runner.t * option error) :=
  m ← get;
  mret (filter (λ r, Before (Runner.CreatedAt r) until = true)
          ((range _ (runners m)).*2),
        None).
End Range.

End Memory.

(** ** Package mysql: the relational backend

    The database is reached through [m.Conn]: its two methods are the
    interface to the outside, and their answers are inputs of the model. *)

Module MySQL.

(** An argument bound to a [?] placeholder. *)
Inductive arg : Type :=
  | ArgUUID (u : uuid.UUID)
  | ArgString (s : string)
  | ArgNullString (s : NullString.t)
  | ArgResourceType (r : ResourceType.t).

(** The character that delimits the string literals inside the queries. *)
Definition dquote : string := String (Ascii.ascii_of_nat 34) EmptyString.

(** The head shared by the two [SELECT] queries. *)
Definition selectTarget : string :=
  "SELECT uuid, scope, ghe_domain, github_personal_token, resource_type, runner_user, created_at, updated_at FROM targets WHERE ".

(** The query text that [GetTargetByScope] builds with [fmt.Sprintf]. *)
Definition scopeQuery (gheDomain scope : string) : string :=
  let query := selectTarget +:+ "scope = " +:+ dquote +:+ scope +:+ dquote in
  if bool_decide (gheDomain ≠ EmptyString)
  then query +:+ " AND ghe_domain = " +:+ dquote +:+ gheDomain +:+ dquote
  else query.

(** The query text of [GetTarget]. *)
Definition uuidQuery : string := selectTarget +:+ "uuid = ?".

Section Conn.
(** [m.Conn.ExecContext(ctx, query, args...)]: the error it returns. *)
Variable ExecContext : string → list arg → option error.
(** [m.Conn.GetContext(ctx, &t, query, args...)]: either the row read
    into [t], or the error. *)
Variable GetContext : string → list arg → Target.t + error.

(** [CreateTarget]. *)
Definition CreateTarget (target : Target.t) : option error :=
  let query := "INSERT INTO targets(uuid, scope, ghe_domain, github_personal_token, resource_type, runner_user) VALUES (?, ?, ?, ?, ?, ?)" in
  match ExecContext query
          [ArgUUID (Target.UUID target); ArgString (Target.Scope target);
           ArgNullString (Target.GHEDomain target);
           ArgString (Target.GitHubPersonalToken target);
           ArgResourceType (Target.ResourceType target);
           ArgString (Target.RunnerUser target)] with
  | Some err => Some (ErrWrap "failed to execute INSERT query" err)
  | None => None
  end.

(** The common tail of the two lookups. *)
Definition scanTarget (answer : Target.t + error)
  : option Target.t * option error :=
  match answer with
  | inr err =>
      if errors_Is err ErrNoRows then (None, Some ErrNotFound)
      else (None, Some (ErrWrap "failed to execute SELECT query" err))
  | inl t => (Some t, None)
  end.

(** [GetTarget]; the id is bound in its textual form, [id.String()]. *)
Definition GetTarget (id : uuid.UUID) : option Target.t * option error :=
  scanTarget (GetContext uuidQuery [ArgUUID id]).

(** [GetTargetByScope(ctx, gheDomain, scope)]. *)
Definition GetTargetByScope (gheDomain scope : string)
  : option Target.t * option error :=
  scanTarget (GetContext (scopeQuery gheDomain scope) []).

(** [DeleteTarget]. *)
Definition DeleteTarget (id : uuid.UUID) : option error :=
  let query := "DELETE FROM targets WHERE uuid = ?" in
  match ExecContext query [ArgUUID id] with
  | Some err => Some (ErrWrap "failed to execute DELETE query" err)
  | None => None
  end.
End Conn.

End MySQL.

(** ** The pieces of Go's [time], [sort] and of go-github that the
       pending-run helpers call *)

Module time.

(** [time.Duration]: nanoseconds, a signed 64-bit integer. *)
Definition Duration : Type := Z.

Definition Nanosecond : Duration := 1.
Definition Second : Duration := 1000000000 * Nanosecond.
Definition Minute : Duration := 60 * Second.
Definition Hour : Duration := 60 * Minute.

Definition minDuration : Duration := - 2 ^ 63.
Definition maxDuration : Duration := 2 ^ 63 - 1.

(** [t.Add(d)]. *)
Definition Add (t : Time) (d : Duration) : Time := t + d.

(** [t.Sub(u)]: the difference, saturated to the range of [Duration]. *)
Definition Sub (t u : Time) : Duration :=
  if bool_decide (t - u < minDuration) then minDuration
  else if bool_decide (maxDuration < t - u) then maxDuration
  else t - u.

(** [time.Since(t)] is [time.Now().Sub(t)]; [now] is the reading of the
    clock. *)
Definition Since (now t : Time) : Duration := Sub now t.

(** *** float64 arithmetic

    A float64 operation returns the rounding of the exact result. The
    rounding function is a section variable; what is used of it is that
    it is monotone and leaves alone the numbers [k / 2^e] with a
    significand [k] below [2^53] (and [e] in the normal range). *)
Record Float64Rounding (rnd : Q → Q) : Prop := {
  rnd_mono : ∀ x y : Q, (x <= y)%Q → (rnd x <= rnd y)%Q;
  rnd_exact : ∀ k e : Z,
    Z.abs k < 2 ^ 53 → 0 <= e <= 1022 →
    (rnd (inject_Z k / inject_Z (2 ^ e)) == inject_Z k / inject_Z (2 ^ e))%Q
}.

Section Float64.
Variable rnd : Q → Q.

(** [float64(n)] for an integer [n]. *)
Definition float64 (n : Z) : Q := rnd (inject_Z n).

(** [d.Minutes()]:
    [min := d / Minute; nsec := d % Minute;
     return float64(min) + float64(nsec)/(60*1e9)].
    Go's [/] and [%] on integers truncate towards zero. *)
Definition Minutes (d : Duration) : Q :=
  let min := Z.quot d Minute in
  let nsec := Z.rem d Minute in
  rnd (float64 min + rnd (float64 nsec / inject_Z 60000000000)).
End Float64.

End time.

Module sort.

(** Insertion of [x] into a sorted [l] whose elements all came after [x]
    in the slice: [x] passes the elements that [less] puts before it, and
    no other. *)
Fixpoint insertStable {A : Type} (less : A → A → bool) (x : A) (l : list A)
  : list A :=
  match l with
  | [] => [x]
  | y :: l' => if less y x then y :: insertStable less x l'
               else x :: y :: l'
  end.

(** [sort.SliceStable(s, less)]: elements that [less] does not order keep
    their relative position. A stable sort has one result, so that the
    algorithm need not be the library's. *)
Definition SliceStable {A : Type} (less : A → A → bool) (s : list A) : list A :=
  foldr (insertStable less) [] s.

End sort.

Module github.

(** [github.WorkflowRun], with the fields the helpers read; every field
    is a pointer. *)
Module WorkflowRun.
Record t : Type := Build {
  ID : option Z;
  Status : option string;
  CreatedAt : option Time
}.
#[global] Instance eq_dec : EqDecision t.
Proof. solve_decision. Defined.
End WorkflowRun.

(** [r.GetStatus()]: the empty string when [r] or the field is [nil]. *)
Definition GetStatus (r : option WorkflowRun.t) : string :=
  match r with
  | Some run => default EmptyString (WorkflowRun.Status run)
  | None => EmptyString
  end.

(** [r.GetID()]. *)
Definition GetID (r : option WorkflowRun.t) : Z :=
  match r with
  | Some run => default 0 (WorkflowRun.ID run)
  | None => 0
  end.

End github.

(** ** Package datastore: the pending-run helpers *)

(** What a call does: it returns, or the goroutine panics (here: on a nil
    pointer dereference). *)
Inductive outcome (A : Type) : Type :=
  | Returns (a : A)
  | Panics.
Arguments Returns {A} a.
Arguments Panics {A}.

Module datastore.
Import time github.

Section PendingRun.
(** The rounding of float64 arithmetic. *)
Variable rnd : Q → Q.
(** [clock i]: what [time.Now()] reads when the loop examines the run
    at index [i]. *)
Variable clock : nat → Time.

(** [r.GetStatus() == "queued" || r.GetStatus() == "pending"]. *)
Definition queuedOrPending (r : option WorkflowRun.t) : bool :=
  bool_decide (GetStatus r = "queued") || bool_decide (GetStatus r = "pending").

(** [r.CreatedAt.Time]: defined when neither [r] nor [r.CreatedAt] is
    [nil]. *)
Definition createdAt (r : option WorkflowRun.t) : option Time :=
  r ≫= WorkflowRun.CreatedAt.

(** The test [sinceMinutes >= float64(oldMinutes)] with
    [oldMinutes := 30]. *)
Definition overOldMinutes (now created : Time) : bool :=
  let oldMinutes := 30 in
  let sinceMinutes := Minutes rnd (Since now created) in
  Qle_bool (float64 rnd oldMinutes) sinceMinutes.

(** The loop of [getPendingRunByRepo], from index [i] on; logging is
    left out. *)
Fixpoint pendingLoop (i : nat) (runs pendingRuns : list (option WorkflowRun.t))
  : outcome (list (option WorkflowRun.t)) :=
  match runs with
  | [] => Returns pendingRuns
  | r :: rest =>
      if queuedOrPending r then
        match createdAt r with
        | None => Panics
        | Some created =>
            if overOldMinutes (clock i) created
            then pendingLoop (S i) rest (pendingRuns ++ [r])
            else pendingLoop (S i) rest pendingRuns
        end
      else pendingLoop (S i) rest pendingRuns
  end.

(** [getPendingRunByRepo]; [listed] is the answer of
    [gh.ListWorkflowRunsNewestOneHundred]. *)
Definition getPendingRunByRepo
    (listed : list (option WorkflowRun.t) * option error)
  : outcome (list (option WorkflowRun.t) * option error) :=
  match listed with
  | (_, Some err) => Returns ([], Some (ErrWrap "failed to list runs" err))
  | (runs, None) =>
      match pendingLoop 0 runs [] with
      | Returns pendingRuns => Returns (pendingRuns, None)
      | Panics => Panics
      end
  end.
End PendingRun.

Section RecentRepositories.
(** The reading of [time.Now()]. *)
Variable now : Time.
(** [ds.ListRunnersLogBySince], a method of the [Datastore] interface. *)
Variable ListRunnersLogBySince : Time → list Runner.t * option error.
(** The order in which the keys of the set of repositories are visited. *)
Variable rangeKeys : gset string → list string.

(** The loop that fills [recentActiveRepositories]. *)
Definition uniqueRepositories (recentRunners : list Runner.t) : gset string :=
  foldl (λ recentActiveRepositories r,
           let u := Runner.RepositoryURL r in
           if decide (u ∈ recentActiveRepositories)
           then recentActiveRepositories
           else {[u]} ∪ recentActiveRepositories)
        ∅ recentRunners.

(** [getRecentRepositories]. *)
Definition getRecentRepositories : list string * option error :=
  let recent := Add now (-24 * Hour) in
  match ListRunnersLogBySince recent with
  | (_, Some err) =>
      ([], Some (ErrWrap "failed to get targets from datastore" err))
  | (recentRunners, None) =>
      let recentRunners :=
        sort.SliceStable
          (λ ri rj, After (Runner.CreatedAt ri) (Runner.CreatedAt rj))
          recentRunners in
      let recentActiveRepositories := uniqueRepositories recentRunners in
      (rangeKeys recentActiveRepositories, None)
  end.
End RecentRepositories.

(** [strings.TrimPrefix(s, prefix)]: [s] without the leading [prefix], or
    [s] itself when it does not start with [prefix]. *)
Fixpoint stripPrefix (prefix s : string) : option string :=
  match prefix with
  | EmptyString => Some s
  | String p prefix' =>
      match s with
      | String c s' => if bool_decide (p = c) then stripPrefix prefix' s' else None
      | EmptyString => None
      end
  end.

Definition TrimPrefix (s prefix : string) : string :=
  default s (stripPrefix prefix s).

(** [type PendingWorkflowRunWithTarget struct]: two pointers. *)
Module PendingWorkflowRunWithTarget.
Record t : Type := Build {
  Target : option Target.t;
  WorkflowRun : option WorkflowRun.t
}.
End PendingWorkflowRunWithTarget.

Section Sweep.
(** [*github.Client]; the client is only handed on. *)
Variable Client : Type.
(** [SearchRepo(ctx, ds, repo)], of this package. *)
Variable SearchRepo : string → option Target.t * option error.
(** [gh.IsInstalledGitHubApp(ctx, scope)]. *)
Variable IsInstalledGitHubApp : string → Z * option error.
(** [gh.NewClientInstallation(installationID)]. *)
Variable NewClientInstallation : Z → option Client * option error.

(** [NewClientInstallationByRepo]. [target.Scope] is read right after the
    error check, so that a nil target with a nil error panics. *)
Definition NewClientInstallationByRepo (repo : string)
  : outcome (option Client * option Target.t * option error) :=
  match SearchRepo repo with
  | (_, Some err) =>
      Returns (None, None, Some (ErrWrap "failed to search repository" err))
  | (None, None) => Panics
  | (Some target, None) =>
      match IsInstalledGitHubApp (Target.Scope target) with
      | (_, Some err) =>
          Returns (None, None, Some (ErrWrap "failed to get installation ID" err))
      | (installationID, None) =>
          match NewClientInstallation installationID with
          | (_, Some err) =>
              Returns (None, None, Some (ErrWrap "failed to create client" err))
          | (client, None) => Returns (client, Some target, None)
          end
      end
  end.

(** The rounding of float64 arithmetic. *)
Variable rnd : Q → Q.
(** [clock k i]: what [time.Now()] reads when the run at index [i] of the
    repository at index [k] is examined. *)
Variable clock : nat → nat → Time.
(** [url.Parse(rawURL)]: the [Path] of the parsed URL, or the error. *)
Variable urlParse : string → string + error.
(** [gh.DivideScope(fullName)]. *)
Variable DivideScope : string → string * string.
(** [gh.ListWorkflowRunsNewestOneHundred(ctx, client, owner, repo)]. *)
Variable ListWorkflowRunsNewestOneHundred :
  option Client → string → string → list (option WorkflowRun.t) * option error.

(** The loop of [GetPendingWorkflowRunByRecentRepositories] over the
    repositories, from index [k] on; a repository that fails at any step
    is skipped ([continue]), logging is left out. *)
Fixpoint sweepLoop (k : nat) (repositories : list string)
    (pendingRuns : list PendingWorkflowRunWithTarget.t)
  : outcome (list PendingWorkflowRunWithTarget.t) :=
  match repositories with
  | [] => Returns pendingRuns
  | repoRawURL :: rest =>
      match urlParse repoRawURL with
      | inr _ => sweepLoop (S k) rest pendingRuns
      | inl path =>
          let fullName := TrimPrefix path "/" in
          match NewClientInstallationByRepo fullName with
          | Panics => Panics
          | Returns (_, _, Some _) => sweepLoop (S k) rest pendingRuns
          | Returns (client, target, None) =>
              let '(owner, repo) := DivideScope fullName in
              match getPendingRunByRepo rnd (clock k)
                      (ListWorkflowRunsNewestOneHundred client owner repo) with
              | Panics => Panics
              | Returns (_, Some _) => sweepLoop (S k) rest pendingRuns
              | Returns (pendingRunsByRepo, None) =>
                  sweepLoop (S k) rest
                    (pendingRuns
                       ++ map (PendingWorkflowRunWithTarget.Build target)
                            pendingRunsByRepo)
              end
          end
      end
  end.

(** The reading of [time.Now()] in [getRecentRepositories]. *)
Variable now : Time.
(** [ds.ListRunnersLogBySince]. *)
Variable ListRunnersLogBySince : Time → list Runner.t * option error.
(** The order in which the keys of the set of repositories are visited. *)
Variable rangeKeys : gset string → list string.

(** [GetPendingWorkflowRunByRecentRepositories]. *)
Definition GetPendingWorkflowRunByRecentRepositories
  : outcome (list PendingWorkflowRunWithTarget.t * option error) :=
  match getRecentRepositories now ListRunnersLogBySince rangeKeys with
  | (_, Some err) =>
      Returns ([], Some (ErrWrap "failed to get recent repositories" err))
  | (recentActiveRepositories, None) =>
      match sweepLoop 0 recentActiveRepositories [] with
      | Returns pendingRuns => Returns (pendingRuns, None)
      | Panics => Panics
      end
  end.
End Sweep.

End datastore.

(** ** Package metric: the scraper of the in-process gauges *)

Module prometheus.

(** [prometheus.BuildFQName(namespace, subsystem, name)]: the non-empty
    parts joined by an underscore; empty when [name] is empty. *)
Definition BuildFQName (namespace subsystem name : string) : string :=
  if bool_decide (name = EmptyString) then EmptyString
  else if bool_decide (namespace ≠ EmptyString) && bool_decide (subsystem ≠ EmptyString)
       then namespace +:+ "_" +:+ subsystem +:+ "_" +:+ name
  else if bool_decide (namespace ≠ EmptyString) then namespace +:+ "_" +:+ name
  else if bool_decide (subsystem ≠ EmptyString) then subsystem +:+ "_" +:+ name
  else name.

(** [*prometheus.Desc], as [prometheus.NewDesc(fqName, help,
    variableLabels, nil)] builds it. *)
Module Desc.
Record t : Type := Build {
  fqName : string;
  help : string;
  variableLabels : list string
}.
#[global] Instance eq_dec : EqDecision t.
Proof. solve_decision. Defined.
End Desc.

Inductive ValueType : Type := CounterValue | GaugeValue | UntypedValue.

(** A constant metric: its descriptor, its type, its value (a float64) and
    the values of its variable labels. *)
Module Metric.
Record t : Type := Build {
  desc : Desc.t;
  valueType : ValueType;
  value : Q;
  labelValues : list string
}.
End Metric.

(** Well-formed UTF-8, on the bytes of a string: ASCII bytes; a lead byte
    C2..DF, E0..EF or F0..F4 with one, two or three continuation bytes
    80..BF, where the byte after E0, ED, F0 and F4 is further restricted
    (no overlong forms, no surrogates, nothing above U+10FFFF). *)
Fixpoint validUTF8 (bytes : list N) : bool :=
  let within (lo hi b : N) : bool := ((lo <=? b) && (b <=? hi))%N in
  let cont := within 128%N 191%N in
  match bytes with
  | [] => true
  | b0 :: rest =>
      if (b0 <? 128)%N then validUTF8 rest
      else if within 194%N 223%N b0 then
        match rest with
        | b1 :: rest' => cont b1 && validUTF8 rest'
        | _ => false
        end
      else if within 224%N 239%N b0 then
        match rest with
        | b1 :: b2 :: rest' =>
            (if (b0 =? 224)%N then within 160%N 191%N b1
             else if (b0 =? 237)%N then within 128%N 159%N b1
             else cont b1)
            && cont b2 && validUTF8 rest'
        | _ => false
        end
      else if within 240%N 244%N b0 then
        match rest with
        | b1 :: b2 :: b3 :: rest' =>
            (if (b0 =? 240)%N then within 144%N 191%N b1
             else if (b0 =? 244)%N then within 128%N 143%N b1
             else cont b1)
            && cont b2 && cont b3 && validUTF8 rest'
        | _ => false
        end
      else false
  end.

(** [utf8.ValidString(s)]. *)
Definition ValidString (s : string) : bool :=
  validUTF8 (map Ascii.N_of_ascii (String.list_ascii_of_string s)).

Section ConstMetric.
(** Whether [prometheus.NewDesc] has recorded an error in the descriptor:
    the outcome of the library's checks of the metric name and of the
    label names. *)
Variable descErr : Desc.t → bool.

(** [prometheus.MustNewConstMetric(desc, valueType, value, labelValues...)]
    panics where [NewConstMetric] returns an error: when the descriptor
    carries an error, when the number of label values is not the number of
    variable labels of the descriptor, and when a label value is not valid
    UTF-8. *)
Definition MustNewConstMetric (desc : Desc.t) (valueType : ValueType) (value : Q)
    (labelValues : list string) : outcome Metric.t :=
  if descErr desc then Panics
  else if negb (bool_decide (length labelValues = length (Desc.variableLabels desc)))
  then Panics
  else if negb (forallb ValidString labelValues) then Panics
  else Returns (Metric.Build desc valueType value labelValues).
End ConstMetric.

End prometheus.

Module metric.
Import prometheus.

(** A function that sends on [ch]: the metrics sent so far are threaded
    through; a panic ends the call. *)
Definition Sender (A : Type) : Type := list Metric.t → outcome (A * list Metric.t).

#[global] Instance Sender_ret : MRet Sender := λ A a ch, Returns (a, ch).
#[global] Instance Sender_bind : MBind Sender :=
  λ A B f c ch,
    match c ch with
    | Returns (a, ch') => f a ch'
    | Panics => Panics
    end.

(** [ch <- prometheus.MustNewConstMetric(...)]. *)
Definition send (m : outcome Metric.t) : Sender unit :=
  λ ch, match m with
        | Returns metric => Returns (tt, ch ++ [metric])
        | Panics => Panics
        end.

(** One [send] per visited entry of a map. *)
Fixpoint sendAll {K V : Type} (f : K → V → outcome Metric.t) (visited : list (K * V))
  : Sender unit :=
  match visited with
  | [] => mret tt
  | (k, v) :: rest => send (f k v);; sendAll f rest
  end.

Definition memoryName : string := "memory".

Section Scraper.
(** The constant [namespace] of the package. *)
Variable namespace : string.
(** The rounding of the conversions to float64. *)
Variable rnd : Q → Q.
(** Whether a descriptor carries an error. *)
Variable descErr : Desc.t → bool.
(** [config.Config.MaxConnectionsToBackend] and
    [config.Config.MaxConcurrencyDeleting]. *)
Variables MaxConnectionsToBackend MaxConcurrencyDeleting : Z.
(** [starter.CountRunning], [starter.CountWaiting] and
    [runner.ConcurrencyDeleting]. *)
Variables CountRunning CountWaiting ConcurrencyDeleting : Z.
(** [gh.GetRateLimitRemain()] and [gh.GetRateLimitLimit()]. *)
Variables GetRateLimitRemain GetRateLimitLimit : gmap string Z.
(** The order in which a [map[string]int] is visited. *)
Variable rangeScopes : gmap string Z → list (string * Z).

Definition memoryStarterMaxRunning : Desc.t :=
  Desc.Build (BuildFQName namespace memoryName "starter_max_running")
    "The number of max running in starter (Config)" ["starter"].
Definition memoryStarterQueueRunning : Desc.t :=
  Desc.Build (BuildFQName namespace memoryName "starter_queue_running")
    "running queue in starter" ["starter"].
Definition memoryStarterQueueWaiting : Desc.t :=
  Desc.Build (BuildFQName namespace memoryName "starter_queue_waiting")
    "waiting queue in starter" ["starter"].
Definition memoryGitHubRateLimitRemaining : Desc.t :=
  Desc.Build (BuildFQName namespace memoryName "github_rate_limit_remaining")
    "The number of rate limit remaining" ["scope"].
Definition memoryGitHubRateLimitLimiting : Desc.t :=
  Desc.Build (BuildFQName namespace memoryName "github_rate_limit_limiting")
    "The number of rate limit max" ["scope"].
Definition memoryRunnerMaxConcurrencyDeleting : Desc.t :=
  Desc.Build (BuildFQName namespace memoryName "runner_max_concurrency_deleting")
    "The number of max concurrency deleting in runner (Config)" ["runner"].
Definition memoryRunnerQueueConcurrencyDeleting : Desc.t :=
  Desc.Build (BuildFQName namespace memoryName "runner_queue_concurrency_deleting")
    "deleting concurrency in runner" ["runner"].

(** The descriptors of the package, in the order of their declaration. *)
Definition descriptors : list Desc.t :=
  [memoryStarterMaxRunning; memoryStarterQueueRunning; memoryStarterQueueWaiting;
   memoryGitHubRateLimitRemaining; memoryGitHubRateLimitLimiting;
   memoryRunnerMaxConcurrencyDeleting; memoryRunnerQueueConcurrencyDeleting].

(** [ScraperMemory.Name] and [ScraperMemory.Help]. *)
Definition Name : string := memoryName.
Definition Help : string := "Collect from memory".

(** A gauge with one label value. *)
Definition gauge (desc : Desc.t) (n : Z) (label : string) : outcome Metric.t :=
  MustNewConstMetric descErr desc GaugeValue (time.float64 rnd n) [label].

(** [scrapeStarterValues]. *)
Definition scrapeStarterValues : Sender (option error) :=
  let configMax := MaxConnectionsToBackend in
  let labelStarter := "starter" in
  send (gauge memoryStarterMaxRunning configMax labelStarter);;
  let countRunning := CountRunning in
  let countWaiting := CountWaiting in
  send (gauge memoryStarterQueueRunning countRunning labelStarter);;
  send (gauge memoryStarterQueueWaiting countWaiting labelStarter);;
  let labelRunner := "runner" in
  let configRunnerDeletingMax := MaxConcurrencyDeleting in
  let countRunnerDeletingNow := ConcurrencyDeleting in
  send (gauge memoryRunnerMaxConcurrencyDeleting configRunnerDeletingMax labelRunner);;
  send (gauge memoryRunnerQueueConcurrencyDeleting countRunnerDeletingNow labelRunner);;
  mret None.

(** [scrapeGitHubValues]. *)
Definition scrapeGitHubValues : Sender (option error) :=
  let rateLimitRemain := GetRateLimitRemain in
  sendAll (λ scope remain, gauge memoryGitHubRateLimitRemaining remain scope)
    (rangeScopes rateLimitRemain);;
  let rateLimitLimit := GetRateLimitLimit in
  sendAll (λ scope limit, gauge memoryGitHubRateLimitLimiting limit scope)
    (rangeScopes rateLimitLimit);;
  mret None.

(** [ScraperMemory.Scrape]. *)
Definition Scrape : Sender (option error) :=
  err ← scrapeStarterValues;
  match err with
  | Some err => mret (Some (ErrWrap "failed to scrape starter values" err))
  | None =>
      err ← scrapeGitHubValues;
      match err with
      | Some err => mret (Some (ErrWrap "failed to scrape GitHub values" err))
      | None => mret None
      end
  end.
End Scraper.

End metric.

(** ** The invariant of the data model, and sample states

    The states and inputs at which the properties below are evaluated. *)

Module Samples.
Import Memory time github.

(** A store with one runner, in status [completed]. *)
Definition runner1 : Runner.t :=
  Runner.Build 1%N 7%N "shoes-lxd" "vm-1" "myshoes-1"
    "https://github.com/acme/widget" ResourceType.Nano
    (NullString.Build EmptyString false) "completed" 1000 (Some 2000) None.

Definition store1 : t := Build ∅ ∅ {[ 1%N := runner1 ]}.

(** The job that a Recoverer pass builds for workflow run 42 of target 7;
    every pass gives its job an id of its own. *)
Definition job42 (id : uuid.UUID) : Job.t :=
  Job.Build id 7%N (NullString.Build EmptyString false) "acme/widget"
    "{}" (Some 42) 5000.

(** The invariant of the data model: among the targets that are not
    deleted, no two have the same scope and CI-domain. *)
Definition scope_domain_unique (ts : gmap uuid.UUID Target.t) : Prop :=
  ∀ id1 id2 t1 t2,
    ts !! id1 = Some t1 → ts !! id2 = Some t2 → id1 ≠ id2 →
    Target.Status t1 ≠ TargetStatusDeleted →
    Target.Status t2 ≠ TargetStatusDeleted →
    (Target.Scope t1, Target.GHEDomain t1) ≠ (Target.Scope t2, Target.GHEDomain t2).

(** An active target for [scope] on the CI host [domain]. *)
Definition activeTarget (id : uuid.UUID) (scope domain : string) : Target.t :=
  Target.Build id scope (NullString.Build domain true) "ghp_token" "token" 9000
    ResourceType.Nano "runner" (NullString.Build EmptyString false)
    "active" (NullString.Build EmptyString false) 100 100.

(** A store with two active targets. *)
Definition store2 : t :=
  Build (<[ 2%N := activeTarget 2%N "acme/widget" "ghe.example.com" ]>
           {[ 1%N := activeTarget 1%N "acme" "ghe.example.com" ]}) ∅ ∅.

(** The range function that visits a map in the order of its listing. *)
Definition listingRange : ∀ V : Type, gmap uuid.UUID V → list (uuid.UUID * V) :=
  λ V m, map_to_list m.

(** Four listed entries, examined when the clock reads minute 100: a run
    queued since minute 60, a run pending since minute 90, a completed
    run, and a nil entry. *)
Definition run (id : Z) (status : string) (createdMinute : Z) : option WorkflowRun.t :=
  Some (WorkflowRun.Build (Some id) (Some status) (Some (createdMinute * Minute))).

Definition listed : list (option WorkflowRun.t) :=
  [run 11 "queued" 60; run 12 "pending" 90; run 13 "completed" 10; None].

(** The audit log of two runners: one for repository [old], created at
    hour 1, and one for repository [new], created at hour 2. *)
Definition runnerAt (id : uuid.UUID) (repo : string) (createdHour : Z) : Runner.t :=
  Runner.Build id 7%N "shoes-lxd" "vm" "myshoes" repo ResourceType.Nano
    (NullString.Build EmptyString false) "completed" (createdHour * Hour) None None.

Definition auditLog : list Runner.t :=
  [runnerAt 1%N "https://github.com/acme/old" 1;
   runnerAt 2%N "https://github.com/acme/new" 2].

(** A datastore whose log is [auditLog]. *)
Definition logSince (since : Time) : list Runner.t * option error :=
  (filter (λ r, After (Runner.CreatedAt r) since = true) auditLog, None).

End Samples.

(** ** Further invariants and sample inputs *)

Module Scenarios.
Import Memory time github Samples.

(** Every row is stored under its own id, in each of the three maps. *)
Definition keyed (m : Memory.t) : Prop :=
  (∀ id t, targets m !! id = Some t → Target.UUID t = id)
  ∧ (∀ id j, jobs m !! id = Some j → Job.UUID j = id)
  ∧ (∀ id r, runners m !! id = Some r → Runner.UUID r = id).

(** A store with the two targets of [store2], the job of a first
    Recoverer pass and the runner of [store1]. *)
Definition store3 : Memory.t :=
  Memory.Build (targets store2) {[ 1%N := job42 1%N ]} (runners store1).

(** A runner of target 7 that is not in [store3]. *)
Definition runner2 : Runner.t :=
  Runner.Build 2%N 7%N "shoes-lxd" "vm-2" "myshoes-2"
    "https://github.com/acme/gadget" ResourceType.Micro
    (NullString.Build EmptyString false) "created" 3000 None None.

(** The number of [?] placeholders in the text of a statement. *)
Fixpoint placeholders (query : string) : nat :=
  match query with
  | EmptyString => 0
  | String c query' =>
      (if bool_decide (c = Ascii.ascii_of_nat 63) then 1 else 0)%nat
      + placeholders query'
  end.

(** A database that has no row for any request. *)
Definition noRows : string → list MySQL.arg → Target.t + error :=
  λ _ _, inr (ErrWrap "sqlx" ErrNoRows).

(** A database whose connection is gone. *)
Definition badConn : error := ErrNew "driver: bad connection".

(** A run that is queued and carries no creation time. *)
Definition runWithoutTime : option WorkflowRun.t :=
  Some (WorkflowRun.Build (Some 14) (Some "queued") None).

(** The collaborators of the sweep, for the repositories of [auditLog]:
    the URL of [old] does not parse; [new] is found, its installation is
    42, and the CI service lists [listed] for it. *)
Definition parseSample (rawURL : string) : string + error :=
  if bool_decide (rawURL = "https://github.com/acme/new") then inl "/acme/new"
  else inr (ErrNew "parse error").

Definition searchSample (repo : string) : option Target.t * option error :=
  if bool_decide (repo = "acme/new")
  then (Some (activeTarget 1%N "acme" "ghe.example.com"), None)
  else (None, Some ErrNotFound).

Definition installedSample (scope : string) : Z * option error := (42, None).

Definition clientSample (installationID : Z) : option Z * option error :=
  (Some installationID, None).

Definition divideSample (fullName : string) : string * string := ("acme", "new").

Definition listSample (client : option Z) (owner repo : string)
  : list (option WorkflowRun.t) * option error := (listed, None).

Section SweepSpec.
Variable Client : Type.
Variable SearchRepo : string → option Target.t * option error.
Variable IsInstalledGitHubApp : string → Z * option error.
Variable NewClientInstallation : Z → option Client * option error.
Variable clock : nat → nat → Time.
Variable urlParse : string → string + error.
Variable DivideScope : string → string * string.
Variable ListWorkflowRunsNewestOneHundred :
  option Client → string → string → list (option WorkflowRun.t) * option error.

(** [sweptAt k rawURL p]: the pair [p] is due to the repository [rawURL],
    visited as the [k]-th: the URL parses, a client and the target of [p]
    are found for its path without the leading slash, the CI service lists
    runs for it, and the run of [p] is one of them, queued or pending and
    created at least 30 minutes before it is examined. *)
Definition sweptAt (k : nat) (rawURL : string)
    (p : datastore.PendingWorkflowRunWithTarget.t) : Prop :=
  ∃ (path : string) (client : option Client) (runs : list (option WorkflowRun.t))
    (j : nat) (created : Time),
    urlParse rawURL = inl path
    ∧ datastore.NewClientInstallationByRepo Client SearchRepo IsInstalledGitHubApp
        NewClientInstallation (datastore.TrimPrefix path "/")
      = Returns (client, datastore.PendingWorkflowRunWithTarget.Target p, None)
    ∧ ListWorkflowRunsNewestOneHundred client
        (DivideScope (datastore.TrimPrefix path "/")).1
        (DivideScope (datastore.TrimPrefix path "/")).2 = (runs, None)
    ∧ runs !! j = Some (datastore.PendingWorkflowRunWithTarget.WorkflowRun p)
    ∧ (GetStatus (datastore.PendingWorkflowRunWithTarget.WorkflowRun p) = "queued"
       ∨ GetStatus (datastore.PendingWorkflowRunWithTarget.WorkflowRun p) = "pending")
    ∧ datastore.createdAt (datastore.PendingWorkflowRunWithTarget.WorkflowRun p)
      = Some created
    ∧ 30 * Minute <= clock k j - created.
End SweepSpec.

(** The legitimate visiting orders of a [map[string]int]. *)
Definition scope_range (range : gmap string Z → list (string * Z)) : Prop :=
  ∀ m : gmap string Z, range m ≡ₚ map_to_list m.

(** The names of the seven gauges, without namespace and subsystem. *)
Definition gaugeNames : list string :=
  ["starter_max_running"; "starter_queue_running"; "starter_queue_waiting";
   "github_rate_limit_remaining"; "github_rate_limit_limiting";
   "runner_max_concurrency_deleting"; "runner_queue_concurrency_deleting"].

(** Rate-limit counters of two scopes. *)
Definition remainSample : gmap string Z := <[ "acme" := 4990 ]> {[ "acme/widget" := 12 ]}.
Definition limitSample : gmap string Z := {[ "acme" := 5000 ]}.

(** The metric that a gauge call builds when the label counts agree. *)
Definition gaugeMetric (rnd : Q → Q) (desc : prometheus.Desc.t) (n : Z)
    (label : string) : prometheus.Metric.t :=
  prometheus.Metric.Build desc prometheus.GaugeValue (time.float64 rnd n) [label].



(** A scope that is not valid UTF-8: the single byte FF. *)
Definition badScope : string := String (Ascii.ascii_of_nat 255) EmptyString.

(** Descriptors without error. *)
Definition noDescErr : prometheus.Desc.t → bool := λ _, false.

(** The string made of the given bytes. *)
Definition ofBytes (bytes : list N) : string :=
  String.string_of_list_ascii (map Ascii.ascii_of_N bytes).

End Scenarios.

(** * Properties *)

(** ** The in-memory datastore *)

Module MemoryFacts.
Import Memory Samples.

(** Unfolds one method down to the maps. *)
Ltac run :=
  unfold CreateTarget, GetTarget, DeleteTarget, UpdateTargetStatus,
    UpdateToken, UpdateTargetParam, EnqueueJob, DeleteJob, CreateRunner,
    GetRunner, DeleteRunner, GetLock, IsLocked, GetTargetByScope,
    set_targets, set_jobs, set_runners, get, put,
    mbind, M_bind, mret, M_ret in *;
  cbn [targets jobs runners fst snd] in *.

Lemma t_eq (m m' : t) :
  targets m = targets m' → jobs m = jobs m' → runners m = runners m' → m = m'.
Proof. destruct m, m'; cbn; intros; subst; reflexivity. Qed.

(** *** Methods as equations on the state *)

Lemma CreateTarget_eq target m :
  CreateTarget target m =
    (None, Build (<[Target.UUID target := target]> (targets m)) (jobs m) (runners m)).
Proof. reflexivity. Qed.

Lemma EnqueueJob_eq job m :
  EnqueueJob job m =
    (None, Build (targets m) (<[Job.UUID job := job]> (jobs m)) (runners m)).
Proof. reflexivity. Qed.

Lemma DeleteRunner_eq id deletedAt reason m :
  DeleteRunner id deletedAt reason m =
    (None, Build (targets m) (jobs m) (delete id (runners m))).
Proof. reflexivity. Qed.

Lemma GetRunner_eq id m :
  GetRunner id m =
    (match runners m !! id with
     | None => (None, Some ErrNotFound)
     | Some r => (Some r, None)
     end, m).
Proof. run. destruct (runners m !! id); reflexivity. Qed.

Lemma GetTarget_eq id m :
  GetTarget id m =
    (match targets m !! id with
     | None => (None, Some ErrNotFound)
     | Some t => (Some t, None)
     end, m).
Proof. run. destruct (targets m !! id); reflexivity. Qed.

(** *** The advisory lock *)

(** C7. In the in-memory datastore the advisory lock is a no-op: [GetLock]
    returns no error in every state, [IsLocked] reports the unlocked
    state (the constant [datastore.IsNotLocked]) with no error, and both
    leave the state as it was. *)
Theorem lock_is_noop (IsNotLocked : string) (m : t) :
  GetLock m = (None, m) ∧ IsLocked IsNotLocked m = ((IsNotLocked, None), m).
Proof. split; reflexivity. Qed.

(** *** Soft-delete of a runner *)

(** C6. [DeleteRunner] is idempotent: a second call with the same
    arguments reports success like the first and leaves the state that the
    first call produced; the call succeeds whether or not the runner is
    there. *)
Theorem DeleteRunner_idempotent (m : t) (id : uuid.UUID) (deletedAt : Time)
    (reason : RunnerStatus) :
  let '(err1, m1) := DeleteRunner id deletedAt reason m in
  let '(err2, m2) := DeleteRunner id deletedAt reason m1 in
  err1 = None ∧ err2 = None ∧ m2 = m1.
Proof.
  rewrite !DeleteRunner_eq. cbn [targets jobs runners].
  repeat split. by rewrite delete_delete_eq.
Qed.

(** C1, as stated, fails: runner 1 is in [store1]; after [DeleteRunner]
    with reason [deleted] and timestamp 3000 the row is gone from the map,
    and no lookup returns the runner, let alone with that status and that
    timestamp. *)
Lemma DeleteRunner_retains_counterexample :
  let m' := (DeleteRunner 1%N 3000 RunnerStatusDeleted store1).2 in
  runners store1 !! 1%N = Some runner1
  ∧ runners m' !! 1%N = None
  ∧ ¬ ∃ r, (GetRunner 1%N m').1 = (Some r, None)
           ∧ Runner.Status r = RunnerStatusDeleted
           ∧ Runner.DeletedAt r = Some 3000.
Proof.
  cbn zeta. rewrite DeleteRunner_eq, GetRunner_eq. cbn [runners fst snd].
  rewrite lookup_delete_eq. split; [done|]. split; [done|].
  intros (r & Hget & _). discriminate.
Qed.

(** C1, amended. [DeleteRunner] of the in-memory datastore removes the
    row: it reports success; afterwards [GetRunner] of that id answers
    [ErrNotFound] and no runner; the reason and the timestamp are not
    recorded (the resulting state does not depend on them); every other
    runner, every target and every job is as before. *)
Theorem DeleteRunner_removes (m : t) (id : uuid.UUID) (deletedAt : Time)
    (reason : RunnerStatus) :
  let m' := (DeleteRunner id deletedAt reason m).2 in
  (DeleteRunner id deletedAt reason m).1 = None
  ∧ GetRunner id m' = ((None, Some ErrNotFound), m')
  ∧ (∀ deletedAt' reason', (DeleteRunner id deletedAt' reason' m).2 = m')
  ∧ (∀ id', id' ≠ id → runners m' !! id' = runners m !! id')
  ∧ targets m' = targets m ∧ jobs m' = jobs m.
Proof.
  cbn zeta. rewrite DeleteRunner_eq, GetRunner_eq. cbn [targets jobs runners fst snd].
  rewrite lookup_delete_eq. repeat split; try done.
  intros id' Hne. by rewrite lookup_delete_ne.
Qed.

Lemma DeleteRunner_removes_witness :
  let m' := (DeleteRunner 1%N 3000 RunnerStatusDeleted store1).2 in
  GetRunner 1%N m' = ((None, Some ErrNotFound), m')
  ∧ runners m' !! 2%N = runners store1 !! 2%N.
Proof.
  destruct (DeleteRunner_removes store1 1%N 3000 RunnerStatusDeleted)
    as (_ & Hget & _ & Hframe & _).
  split; [exact Hget|]. apply Hframe. discriminate.
Defined.

(** *** The job queue *)

(** C3, as stated, fails: two jobs for the same target and the same
    workflow run, equal in every field but their own id; after the first
    has been enqueued, enqueueing the second changes the set of pending
    jobs: both are pending. *)
Lemma EnqueueJob_duplicate_counterexample :
  let j1 := job42 1%N in
  let j2 := job42 2%N in
  let m1 := (EnqueueJob j1 (Build ∅ ∅ ∅)).2 in
  let m2 := (EnqueueJob j2 m1).2 in
  Job.TargetID j1 = Job.TargetID j2
  ∧ Job.CheckRunID j1 = Job.CheckRunID j2
  ∧ Job.CheckEventJSON j1 = Job.CheckEventJSON j2
  ∧ Job.Repository j1 = Job.Repository j2
  ∧ jobs m2 ≠ jobs m1
  ∧ size (jobs m1) = 1%nat ∧ size (jobs m2) = 2%nat
  ∧ jobs m2 !! 1%N = Some j1 ∧ jobs m2 !! 2%N = Some j2.
Proof.
  cbn zeta. rewrite !EnqueueJob_eq. cbn [jobs snd].
  change (Job.UUID (job42 1%N)) with 1%N. change (Job.UUID (job42 2%N)) with 2%N.
  do 4 (split; [done|]). split; [|split; [|split; [|split]]].
  - intros Heq. apply (f_equal (λ js, js !! 2%N)) in Heq.
    rewrite lookup_insert_eq, lookup_insert_ne, lookup_empty in Heq; done.
  - by rewrite insert_empty, map_size_singleton.
  - rewrite map_size_insert_None, insert_empty, map_size_singleton; [done|].
    by rewrite lookup_insert_ne.
  - by rewrite lookup_insert_ne, lookup_insert_eq.
  - by rewrite lookup_insert_eq.
Qed.

(** C3, amended. [EnqueueJob] is idempotent on the job's own id: enqueueing
    the same job a second time reports success and leaves the state
    unchanged, and more generally a job whose id is already pending
    replaces that entry, so that the set of pending ids does not grow.
    A job with another id is stored next to the first, whatever their
    targets and workflow runs. *)
Theorem EnqueueJob_idempotent_on_UUID (m : t) (job : Job.t) :
  let m1 := (EnqueueJob job m).2 in
  EnqueueJob job m1 = (None, m1)
  ∧ (∀ job', Job.UUID job' = Job.UUID job →
       let m2 := (EnqueueJob job' m1).2 in
       dom (jobs m2) = dom (jobs m1) ∧ jobs m2 !! Job.UUID job = Some job')
  ∧ (∀ job', Job.UUID job' ≠ Job.UUID job →
       let m2 := (EnqueueJob job' m1).2 in
       jobs m2 !! Job.UUID job = Some job
       ∧ jobs m2 !! Job.UUID job' = Some job').
Proof.
  cbn zeta. rewrite !EnqueueJob_eq. cbn [targets jobs runners snd].
  split; [|split].
  - by rewrite insert_insert_eq.
  - intros job' Heq. rewrite EnqueueJob_eq. cbn [jobs snd]. rewrite Heq.
    split; [|by rewrite lookup_insert_eq].
    rewrite insert_insert_eq, !dom_insert_L. done.
  - intros job' Hne. rewrite EnqueueJob_eq. cbn [jobs snd].
    split; [by rewrite lookup_insert_ne, lookup_insert_eq|].
    by rewrite lookup_insert_eq.
Qed.

Lemma EnqueueJob_idempotent_on_UUID_witness :
  let job := job42 1%N in
  let m1 := (EnqueueJob job (Build ∅ ∅ ∅)).2 in
  EnqueueJob job m1 = (None, m1)
  ∧ (let m2 := (EnqueueJob (job42 1%N) m1).2 in
     dom (jobs m2) = dom (jobs m1) ∧ jobs m2 !! 1%N = Some (job42 1%N))
  ∧ (let m2 := (EnqueueJob (job42 2%N) m1).2 in
     jobs m2 !! 1%N = Some job ∧ jobs m2 !! 2%N = Some (job42 2%N)).
Proof.
  destruct (EnqueueJob_idempotent_on_UUID (Build ∅ ∅ ∅) (job42 1%N))
    as (H1 & H2 & H3).
  split; [exact H1|split].
  - apply (H2 (job42 1%N)). reflexivity.
  - apply (H3 (job42 2%N)). cbn. discriminate.
Defined.

(** *** Targets *)

Lemma scope_domain_unique_singleton id t :
  scope_domain_unique {[ id := t ]}.
Proof.
  intros id1 id2 t1 t2 H1 H2 Hne.
  apply lookup_singleton_Some in H1 as [<- _].
  apply lookup_singleton_Some in H2 as [<- _]. done.
Qed.

(** C8, as stated, fails: a store with one active target satisfies the
    invariant; [CreateTarget] of a second active target with the same
    scope and CI-domain under another id succeeds, and the invariant no
    longer holds. *)
Lemma CreateTarget_duplicate_counterexample :
  let m := Build {[ 1%N := activeTarget 1%N "acme" "ghe.example.com" ]} ∅ ∅ in
  let '(err, m') := CreateTarget (activeTarget 2%N "acme" "ghe.example.com") m in
  scope_domain_unique (targets m) ∧ err = None ∧ ¬ scope_domain_unique (targets m').
Proof.
  cbn zeta. rewrite CreateTarget_eq. cbn [targets Target.UUID activeTarget].
  split; [apply scope_domain_unique_singleton|]. split; [done|].
  intros Hu.
  apply (Hu 1%N 2%N (activeTarget 1%N "acme" "ghe.example.com")
            (activeTarget 2%N "acme" "ghe.example.com")); done.
Qed.

(** C8, amended. [CreateTarget] of the in-memory datastore makes no check
    and always succeeds; it preserves the invariant when the caller
    brings a target that does not clash: if no two non-deleted targets share (scope,
    CI-domain) before, and no non-deleted target stored under another id
    has the (scope, CI-domain) of the new target (or the new target is
    itself deleted), then no two non-deleted targets share (scope,
    CI-domain) after. *)
Theorem CreateTarget_preserves_unique (m : t) (target : Target.t) :
  (CreateTarget target m).1 = None
  ∧ (scope_domain_unique (targets m) →
     (Target.Status target = TargetStatusDeleted
      ∨ ∀ id t, targets m !! id = Some t → id ≠ Target.UUID target →
          Target.Status t ≠ TargetStatusDeleted →
          (Target.Scope t, Target.GHEDomain t)
            ≠ (Target.Scope target, Target.GHEDomain target)) →
     scope_domain_unique (targets (CreateTarget target m).2)).
Proof.
  rewrite CreateTarget_eq. cbn [targets fst snd]. split; [done|].
  intros Hu Hfresh id1 id2 t1 t2 H1 H2 Hne Hd1 Hd2.
  destruct (decide (id1 = Target.UUID target)) as [->|Hn1];
    destruct (decide (id2 = Target.UUID target)) as [->|Hn2]; [done|..].
  - rewrite lookup_insert_eq in H1. rewrite lookup_insert_ne in H2 by done.
    injection H1 as <-. destruct Hfresh as [Hdel|Hfresh]; [done|].
    intros Heq. by apply (Hfresh id2 t2).
  - rewrite lookup_insert_eq in H2. rewrite lookup_insert_ne in H1 by done.
    injection H2 as <-. destruct Hfresh as [Hdel|Hfresh]; [done|].
    by apply (Hfresh id1 t1).
  - rewrite lookup_insert_ne in H1, H2 by done. by apply (Hu id1 id2).
Qed.

Lemma CreateTarget_preserves_unique_witness :
  let m := Build {[ 1%N := activeTarget 1%N "acme" "ghe.example.com" ]} ∅ ∅ in
  let target := activeTarget 2%N "acme/widget" "ghe.example.com" in
  (CreateTarget target m).1 = None
  ∧ scope_domain_unique (targets (CreateTarget target m).2).
Proof.
  destruct (CreateTarget_preserves_unique
              (Build {[ 1%N := activeTarget 1%N "acme" "ghe.example.com" ]} ∅ ∅)
              (activeTarget 2%N "acme/widget" "ghe.example.com")) as [Herr Hinv].
  split; [exact Herr|]. apply Hinv.
  - apply scope_domain_unique_singleton.
  - right. cbn. intros id t Hl _ _.
    apply lookup_singleton_Some in Hl as [_ <-]. cbn. discriminate.
Defined.

(** C10. [UpdateTargetStatus] on a stored target reports success and
    changes, in that target, the status and the status description only:
    the description string is the given one and its validity flag is set
    exactly when the string is not empty; every other field of the
    target, every other target, every job and every runner is as before.
    On an id that is not stored it returns an error and the state is
    unchanged. *)
Theorem UpdateTargetStatus_frame (m : t) (targetID : uuid.UUID)
    (newStatus : TargetStatus) (description : string) :
  let err := (UpdateTargetStatus targetID newStatus description m).1 in
  let m' := (UpdateTargetStatus targetID newStatus description m).2 in
  (∀ t, targets m !! targetID = Some t →
     err = None
     ∧ (∃ t', targets m' !! targetID = Some t'
          ∧ Target.Status t' = newStatus
          ∧ NullString.String (Target.StatusDescription t') = description
          ∧ (NullString.Valid (Target.StatusDescription t') = true
             ↔ description ≠ EmptyString)
          ∧ Target.UUID t' = Target.UUID t
          ∧ Target.Scope t' = Target.Scope t
          ∧ Target.GHEDomain t' = Target.GHEDomain t
          ∧ Target.GitHubPersonalToken t' = Target.GitHubPersonalToken t
          ∧ Target.GitHubToken t' = Target.GitHubToken t
          ∧ Target.TokenExpiredAt t' = Target.TokenExpiredAt t
          ∧ Target.ResourceType t' = Target.ResourceType t
          ∧ Target.RunnerUser t' = Target.RunnerUser t
          ∧ Target.ProviderURL t' = Target.ProviderURL t
          ∧ Target.CreatedAt t' = Target.CreatedAt t
          ∧ Target.UpdatedAt t' = Target.UpdatedAt t)
     ∧ (∀ id', id' ≠ targetID → targets m' !! id' = targets m !! id')
     ∧ jobs m' = jobs m ∧ runners m' = runners m)
  ∧ (targets m !! targetID = None → (∃ e, err = Some e) ∧ m' = m).
Proof.
  cbn zeta. run. split.
  - intros t Ht. rewrite Ht. cbn [fst snd targets jobs runners].
    split; [done|]. split; [|split; [|done]].
    + eexists. split; [apply lookup_insert_eq|]. cbn.
      repeat split; try done; by case_bool_decide.
    + intros id' Hne. by rewrite lookup_insert_ne.
  - intros Ht. rewrite Ht. cbn. split; [by eexists|done].
Qed.

Lemma UpdateTargetStatus_frame_witness :
  let m' := (UpdateTargetStatus 1%N "err" "quota exceeded" store2).2 in
  (UpdateTargetStatus 1%N "err" "quota exceeded" store2).1 = None
  ∧ targets m' !! 2%N = targets store2 !! 2%N
  ∧ (UpdateTargetStatus 3%N "err" "quota exceeded" store2).2 = store2.
Proof.
  destruct (UpdateTargetStatus_frame store2 1%N "err" "quota exceeded") as [H _].
  destruct (H (activeTarget 1%N "acme" "ghe.example.com") eq_refl)
    as (Herr & _ & Hframe & _).
  destruct (UpdateTargetStatus_frame store2 3%N "err" "quota exceeded") as [_ H3].
  split; [exact Herr|]. split.
  - apply Hframe. discriminate.
  - apply H3. reflexivity.
Defined.

(** *** Lookups *)

Lemma scanScope_not_found (visited : list (uuid.UUID * Target.t)) scope :
  (∀ id t, (id, t) ∈ visited → Target.Scope t ≠ scope) →
  scanScope visited scope = (None, Some ErrNotFound).
Proof.
  induction visited as [|[id t] rest IH]; intros Hno; [done|].
  cbn. rewrite bool_decide_eq_false_2.
  - apply IH. intros id' t' Hin. apply (Hno id'). by right.
  - apply (Hno id). by left.
Qed.

Lemma scanScope_found (visited : list (uuid.UUID * Target.t)) scope t err :
  scanScope visited scope = (Some t, err) →
  err = None ∧ Target.Scope t = scope ∧ ∃ id, (id, t) ∈ visited.
Proof.
  induction visited as [|[id t0] rest IH]; cbn; [discriminate|].
  case_bool_decide as Hs.
  - intros [= <- <-]. repeat split; [done|]. exists id. by left.
  - intros Hr. destruct (IH Hr) as (? & ? & id' & ?).
    repeat split; [done..|]. exists id'. by right.
Qed.

Lemma scanScope_cases (visited : list (uuid.UUID * Target.t)) scope :
  scanScope visited scope = (None, Some ErrNotFound)
  ∨ ∃ t, scanScope visited scope = (Some t, None).
Proof.
  induction visited as [|[id t0] rest IH]; cbn; [by left|].
  case_bool_decide; [right; by eexists|done].
Qed.

Lemma scanTarget_cases (answer : Target.t + error) :
  (∃ e, MySQL.scanTarget answer = (None, Some e))
  ∨ ∃ t, MySQL.scanTarget answer = (Some t, None).
Proof.
  destruct answer as [t|e]; cbn; [right; by eexists|].
  left. destruct (errors_Is e ErrNoRows); by eexists.
Qed.

Lemma listingRange_ok : map_range listingRange.
Proof. intros V m. reflexivity. Qed.

(** C9. A lookup that finds nothing answers [ErrNotFound] and no entity,
    and leaves the state as it was: [GetTarget] and [GetRunner] for an id
    that is not stored, [GetTargetByScope] for a scope that no stored
    target has, and, in the relational backend, [GetTarget] and
    [GetTargetByScope] when the database reports [sql.ErrNoRows]. No
    lookup ever returns a nil entity together with a nil error, and the
    in-memory lookups never change the state. *)
Theorem lookup_absent_ErrNotFound
    (range : ∀ V : Type, gmap uuid.UUID V → list (uuid.UUID * V))
    (GetContext : string → list MySQL.arg → Target.t + error) (m : t) :
  map_range range →
  (∀ id, targets m !! id = None →
     GetTarget id m = ((None, Some ErrNotFound), m))
  ∧ (∀ scope, (∀ id t, targets m !! id = Some t → Target.Scope t ≠ scope) →
       GetTargetByScope range scope m = ((None, Some ErrNotFound), m))
  ∧ (∀ id, runners m !! id = None →
       GetRunner id m = ((None, Some ErrNotFound), m))
  ∧ (∀ id err, GetContext MySQL.uuidQuery [MySQL.ArgUUID id] = inr err →
       errors_Is err ErrNoRows = true →
       MySQL.GetTarget GetContext id = (None, Some ErrNotFound))
  ∧ (∀ gheDomain scope err,
       GetContext (MySQL.scopeQuery gheDomain scope) [] = inr err →
       errors_Is err ErrNoRows = true →
       MySQL.GetTargetByScope GetContext gheDomain scope = (None, Some ErrNotFound))
  ∧ (∀ id scope gheDomain,
       (GetTarget id m).1 ≠ (None, None) ∧ (GetTarget id m).2 = m
       ∧ (GetTargetByScope range scope m).1 ≠ (None, None)
       ∧ (GetTargetByScope range scope m).2 = m
       ∧ (GetRunner id m).1 ≠ (None, None) ∧ (GetRunner id m).2 = m
       ∧ MySQL.GetTarget GetContext id ≠ (None, None)
       ∧ MySQL.GetTargetByScope GetContext gheDomain scope ≠ (None, None)).
Proof.
  intros Hrange. repeat apply conj.
  - intros id Hid. by rewrite GetTarget_eq, Hid.
  - intros scope Hno. run. f_equal. apply scanScope_not_found.
    intros id t Hin. apply (Hno id).
    apply elem_of_map_to_list. by rewrite <- (Hrange _ (targets m)).
  - intros id Hid. by rewrite GetRunner_eq, Hid.
  - intros id err Hq His. unfold MySQL.GetTarget. rewrite Hq. cbn. by rewrite His.
  - intros d scope err Hq His. unfold MySQL.GetTargetByScope. rewrite Hq. cbn.
    by rewrite His.
  - intros id scope d. rewrite GetTarget_eq, GetRunner_eq. run.
    repeat apply conj; try done.
    + by destruct (targets m !! id).
    + destruct (scanScope_cases (range _ (targets m)) scope) as [->|[t ->]]; done.
    + by destruct (runners m !! id).
    + unfold MySQL.GetTarget.
      destruct (scanTarget_cases (GetContext MySQL.uuidQuery [MySQL.ArgUUID id]))
        as [[e ->]|[t ->]]; done.
    + unfold MySQL.GetTargetByScope.
      destruct (scanTarget_cases (GetContext (MySQL.scopeQuery d scope) []))
        as [[e ->]|[t ->]]; done.
Qed.

Lemma lookup_absent_ErrNotFound_witness :
  let noRows : string → list MySQL.arg → Target.t + error :=
    λ _ _, inr (ErrWrap "sqlx" ErrNoRows) in
  GetTarget 3%N store2 = ((None, Some ErrNotFound), store2)
  ∧ GetTargetByScope listingRange "nobody" store2 = ((None, Some ErrNotFound), store2)
  ∧ GetRunner 1%N store2 = ((None, Some ErrNotFound), store2)
  ∧ MySQL.GetTarget noRows 3%N = (None, Some ErrNotFound)
  ∧ MySQL.GetTargetByScope noRows "ghe.example.com" "nobody" = (None, Some ErrNotFound).
Proof.
  intros noRows.
  destruct (lookup_absent_ErrNotFound listingRange noRows store2 listingRange_ok)
    as (H1 & H2 & H3 & H4 & H5 & _).
  repeat apply conj.
  - apply H1. reflexivity.
  - apply H2. intros id t Hl. unfold store2 in Hl. cbn in Hl.
    apply lookup_insert_Some in Hl as [[_ <-]|[_ Hl]]; [discriminate|].
    apply lookup_singleton_Some in Hl as [_ <-]. discriminate.
  - apply H3. reflexivity.
  - apply (H4 3%N (ErrWrap "sqlx" ErrNoRows)); reflexivity.
  - apply (H5 "ghe.example.com" "nobody" (ErrWrap "sqlx" ErrNoRows)); reflexivity.
Defined.

(** What the in-memory [GetTargetByScope] does guarantee: a target it
    returns is stored and has the requested scope, and it answers
    [ErrNotFound] only if no stored target has that scope. *)
Lemma GetTargetByScope_scope
    (range : ∀ V : Type, gmap uuid.UUID V → list (uuid.UUID * V))
    (m : t) (scope : string) :
  map_range range →
  (∀ t err, (GetTargetByScope range scope m).1 = (Some t, err) →
     err = None ∧ Target.Scope t = scope ∧ ∃ id, targets m !! id = Some t)
  ∧ ((GetTargetByScope range scope m).1 = (None, Some ErrNotFound) →
     ∀ id t, targets m !! id = Some t → Target.Scope t ≠ scope).
Proof.
  intros Hrange. run. split.
  - intros t err Hs. apply scanScope_found in Hs as (-> & Hsc & id & Hin).
    repeat split; [done|]. exists id.
    apply elem_of_map_to_list. by rewrite <- (Hrange _ (targets m)).
  - intros Hnf id t Hl Hsc.
    assert (Hin : (id, t) ∈ range _ (targets m))
      by (rewrite (Hrange _ (targets m)); by apply elem_of_map_to_list).
    clear Hl. induction (range _ (targets m)) as [|[id0 t0] rest IH];
      [by apply elem_of_nil in Hin|].
    cbn in Hnf. case_bool_decide as Hs0; [discriminate|].
    apply elem_of_cons in Hin as [[= <- <-]|Hin]; [done|by apply IH].
Qed.


End MemoryFacts.

(** ** The pending-run helpers *)

Module DatastoreFacts.
Import time github datastore Samples.

(** *** The 30-minute test, through float64 *)

Section Rounding.
Variable rnd : Q → Q.
Hypothesis Hrnd : Float64Rounding rnd.

Lemma rnd_le_exact (x : Q) (k e : Z) :
  Z.abs k < 2 ^ 53 → 0 <= e <= 1022 →
  (x <= inject_Z k / inject_Z (2 ^ e))%Q →
  (rnd x <= inject_Z k / inject_Z (2 ^ e))%Q.
Proof.
  intros Hk He Hx. rewrite <- (rnd_exact rnd Hrnd k e Hk He).
  by apply (rnd_mono rnd Hrnd).
Qed.

Lemma rnd_ge_exact (x : Q) (k e : Z) :
  Z.abs k < 2 ^ 53 → 0 <= e <= 1022 →
  (inject_Z k / inject_Z (2 ^ e) <= x)%Q →
  (inject_Z k / inject_Z (2 ^ e) <= rnd x)%Q.
Proof.
  intros Hk He Hx. rewrite <- (rnd_exact rnd Hrnd k e Hk He).
  by apply (rnd_mono rnd Hrnd).
Qed.

Lemma rnd_le_int (x : Q) (k : Z) :
  Z.abs k < 2 ^ 53 → (x <= inject_Z k)%Q → (rnd x <= inject_Z k)%Q.
Proof.
  intros Hk Hx.
  assert (Heq : (inject_Z k / inject_Z (2 ^ 0) == inject_Z k)%Q)
    by (change (inject_Z (2 ^ 0)) with 1%Q; field).
  rewrite <- Heq. apply rnd_le_exact; [done|lia|by rewrite Heq].
Qed.

Lemma rnd_ge_int (x : Q) (k : Z) :
  Z.abs k < 2 ^ 53 → (inject_Z k <= x)%Q → (inject_Z k <= rnd x)%Q.
Proof.
  intros Hk Hx.
  assert (Heq : (inject_Z k / inject_Z (2 ^ 0) == inject_Z k)%Q)
    by (change (inject_Z (2 ^ 0)) with 1%Q; field).
  rewrite <- Heq. apply rnd_ge_exact; [done|lia|by rewrite Heq].
Qed.

(** A duration of 30 minutes or more reads as 30.0 or more. *)
Lemma Minutes_ge (d : Duration) :
  30 * Minute <= d → (inject_Z 30 <= Minutes rnd d)%Q.
Proof.
  intros Hd. unfold Minutes, float64.
  assert (Hmin : 30 <= Z.quot d Minute).
  { change 30 with (Z.quot (30 * Minute) Minute) at 1.
    apply Z.quot_le_mono; [done|]. lia. }
  assert (Hnsec : 0 <= Z.rem d Minute).
  { apply Z.rem_nonneg; [done|]. unfold Minute, Second, Nanosecond in *. lia. }
  apply rnd_ge_int; [done|].
  assert (H1 : (inject_Z 30 <= rnd (inject_Z (Z.quot d Minute)))%Q).
  { apply rnd_ge_int; [done|]. by rewrite <- Zle_Qle. }
  assert (H2 : (inject_Z 0 <= rnd (inject_Z (Z.rem d Minute)))%Q).
  { apply rnd_ge_int; [done|]. by rewrite <- Zle_Qle. }
  assert (H3 : (inject_Z 0
                <= rnd (rnd (inject_Z (Z.rem d Minute)) / inject_Z 60000000000))%Q).
  { apply rnd_ge_int; [done|].
    apply Qle_shift_div_l; [done|]. by rewrite Qmult_0_l. }
  change (inject_Z 0) with 0%Q in *. lra.
Qed.

(** A duration below 30 minutes reads below 30.0: the fraction of a
    minute is at most [1 - 2^-36] after rounding, and the sum at most
    [30 - 2^-36]. *)
Lemma Minutes_lt (d : Duration) :
  d < 30 * Minute → (Minutes rnd d < inject_Z 30)%Q.
Proof.
  intros Hd. unfold Minutes, float64.
  assert (HM : Minute = 60000000000) by reflexivity.
  assert (Hmin : Z.quot d Minute <= 29).
  { destruct (Z.le_gt_cases 0 d) as [Hpos|Hneg].
    - apply Z.lt_succ_r. apply Z.quot_lt_upper_bound; lia.
    - pose proof (Z.quot_opp_l d Minute ltac:(lia)) as Ho.
      pose proof (Z.quot_pos (- d) Minute ltac:(lia) ltac:(lia)). lia. }
  assert (Hnsec : Z.rem d Minute <= 59999999999).
  { destruct (Z.le_gt_cases 0 d) as [Hpos|Hneg].
    - pose proof (Z.rem_bound_pos d Minute Hpos ltac:(lia)). lia.
    - pose proof (Z.rem_nonpos d Minute ltac:(lia) ltac:(lia)). lia. }
  assert (H1 : (rnd (inject_Z (Z.quot d Minute)) <= inject_Z 29)%Q).
  { apply rnd_le_int; [done|]. by rewrite <- Zle_Qle. }
  assert (H2 : (rnd (inject_Z (Z.rem d Minute)) <= inject_Z 59999999999)%Q).
  { apply rnd_le_int; [done|]. by rewrite <- Zle_Qle. }
  assert (H3 : (rnd (rnd (inject_Z (Z.rem d Minute)) / inject_Z 60000000000)
                <= inject_Z (2 ^ 36 - 1) / inject_Z (2 ^ 36))%Q).
  { apply rnd_le_exact; [done|lia|].
    apply Qle_trans with (inject_Z 59999999999 / inject_Z 60000000000)%Q.
    - apply Qle_shift_div_l; [done|].
      unfold Qdiv. rewrite <- Qmult_assoc, (Qmult_comm (/ _)), Qmult_inv_r, Qmult_1_r;
        done.
    - done. }
  assert (H4 : (rnd (rnd (inject_Z (Z.quot d Minute))
                     + rnd (rnd (inject_Z (Z.rem d Minute)) / inject_Z 60000000000))
                <= inject_Z (30 * 2 ^ 36 - 1) / inject_Z (2 ^ 36))%Q).
  { apply rnd_le_exact; [done|lia|].
    assert (Hs : (inject_Z (30 * 2 ^ 36 - 1) / inject_Z (2 ^ 36)
                  == inject_Z 29 + inject_Z (2 ^ 36 - 1) / inject_Z (2 ^ 36))%Q)
      by done.
    rewrite Hs. lra. }
  eapply Qle_lt_trans; [exact H4|]. done.
Qed.

(** The float64 test of the code is the integer comparison of the
    elapsed nanoseconds with 30 minutes. *)
Lemma overOldMinutes_iff (now created : Time) :
  overOldMinutes rnd now created = true ↔ 30 * Minute <= now - created.
Proof.
  unfold overOldMinutes, float64. rewrite Qle_bool_iff.
  assert (HSub : 30 * Minute <= Since now created ↔ 30 * Minute <= now - created).
  { unfold Since, Sub, minDuration, maxDuration, Minute, Second, Nanosecond.
    repeat case_bool_decide; lia. }
  rewrite <- HSub. split.
  - intros Hle. destruct (Z.le_gt_cases (30 * Minute) (Since now created)) as [|Hlt];
      [done|].
    apply Minutes_lt in Hlt.
    assert (H30 : (inject_Z 30 <= rnd (inject_Z 30))%Q)
      by (apply rnd_ge_int; [done|apply Qle_refl]).
    exfalso. apply (Qlt_irrefl (inject_Z 30)).
    eapply Qle_lt_trans; [|exact Hlt]. by eapply Qle_trans.
  - intros Hge. apply Minutes_ge in Hge.
    eapply Qle_trans; [|exact Hge]. apply rnd_le_int; [done|apply Qle_refl].
Qed.
End Rounding.

(** *** The sweep over the listed runs *)

Section Sweep.
Variable rnd : Q → Q.
Hypothesis Hrnd : Float64Rounding rnd.
Variable clock : nat → Time.

Lemma queuedOrPending_iff (r : option WorkflowRun.t) :
  queuedOrPending r = true ↔ GetStatus r = "queued" ∨ GetStatus r = "pending".
Proof.
  unfold queuedOrPending. rewrite orb_true_iff, !bool_decide_eq_true. done.
Qed.

(** The loop returns when every queued or pending run carries its
    creation time, and then appends, in order, the runs that pass both
    tests. *)
Lemma pendingLoop_spec (runs : list (option WorkflowRun.t)) :
  ∀ (i : nat) (pendingRuns : list (option WorkflowRun.t)),
  (∀ r, r ∈ runs → queuedOrPending r = true → is_Some (createdAt r)) →
  ∃ selected,
    pendingLoop rnd clock i runs pendingRuns = Returns (pendingRuns ++ selected)
    ∧ ∀ r, r ∈ selected ↔
           ∃ (j : nat) (created : Time),
             runs !! j = Some r ∧ queuedOrPending r = true
             ∧ createdAt r = Some created
             ∧ 30 * Minute <= clock (i + j)%nat - created.
Proof.
  induction runs as [|r rest IH]; intros i acc Hc.
  - exists []. cbn. rewrite app_nil_r. split; [done|].
    intros r. split; [by intros ?%elem_of_nil|]. by intros (j & c & ? & _).
  - assert (Hrest : ∀ r', r' ∈ rest → queuedOrPending r' = true → is_Some (createdAt r'))
      by (intros r' Hin; apply Hc; by right).
    cbn [pendingLoop].
    destruct (queuedOrPending r) eqn:Hq.
    + destruct (Hc r ltac:(by left) Hq) as [created Hcr]. rewrite Hcr.
      destruct (overOldMinutes rnd (clock i) created) eqn:Hold.
      * destruct (IH (S i) (acc ++ [r]) Hrest) as (sel & -> & Hsel).
        exists (r :: sel). rewrite <- app_assoc. split; [done|].
        intros r'. rewrite elem_of_cons, Hsel. split.
        -- intros [->|(j & c & Hj & ? & ? & Hle)].
           ++ exists 0%nat, created. rewrite Nat.add_0_r.
              repeat split; [done..|]. by apply (overOldMinutes_iff rnd Hrnd).
           ++ exists (S j), c. rewrite <- Nat.add_succ_comm. done.
        -- intros ([|j] & c & Hj & ? & Hc' & Hle).
           ++ left. by injection Hj.
           ++ right. exists j, c. rewrite <- Nat.add_succ_comm in Hle. done.
      * destruct (IH (S i) acc Hrest) as (sel & -> & Hsel).
        exists sel. split; [done|].
        intros r'. rewrite Hsel. split.
        -- intros (j & c & Hj & ? & ? & Hle).
           exists (S j), c. rewrite <- Nat.add_succ_comm. done.
        -- intros ([|j] & c & Hj & ? & Hc' & Hle).
           ++ injection Hj as <-. rewrite Nat.add_0_r in Hle.
              rewrite Hcr in Hc'. injection Hc' as <-.
              apply (overOldMinutes_iff rnd Hrnd) in Hle. congruence.
           ++ exists j, c. rewrite <- Nat.add_succ_comm in Hle. done.
    + destruct (IH (S i) acc Hrest) as (sel & -> & Hsel).
      exists sel. split; [done|].
      intros r'. rewrite Hsel. split.
      * intros (j & c & Hj & ? & ? & Hle).
        exists (S j), c. rewrite <- Nat.add_succ_comm. done.
      * intros ([|j] & c & Hj & Hq' & Hc' & Hle).
        -- injection Hj as <-. congruence.
        -- exists j, c. rewrite <- Nat.add_succ_comm in Hle. done.
Qed.
End Sweep.

(** C2. For the runs that the CI service lists for a repository (each
    queued or pending run carrying its creation time, as the service
    sends it), [getPendingRunByRepo] returns without error the runs it
    selects, and a run is selected if and only if it occurs in the list
    with status [queued] or [pending] and, when the sweep examines it,
    at least 30 minutes have elapsed since its creation time. A run
    pending for less than 30 minutes is therefore not selected. *)
Theorem getPendingRunByRepo_selects
    (rnd : Q → Q) (clock : nat → Time) (runs : list (option WorkflowRun.t)) :
  Float64Rounding rnd →
  (∀ r, r ∈ runs → GetStatus r = "queued" ∨ GetStatus r = "pending" →
        is_Some (createdAt r)) →
  ∃ selected,
    getPendingRunByRepo rnd clock (runs, None) = Returns (selected, None)
    ∧ ∀ r, r ∈ selected ↔
           ∃ (j : nat) (created : Time),
             runs !! j = Some r
             ∧ (GetStatus r = "queued" ∨ GetStatus r = "pending")
             ∧ createdAt r = Some created
             ∧ 30 * Minute <= clock j - created.
Proof.
  intros Hrnd Hc. unfold getPendingRunByRepo.
  destruct (pendingLoop_spec rnd Hrnd clock runs 0 []) as (sel & -> & Hsel).
  { intros r Hin Hq. apply Hc; [done|]. by apply queuedOrPending_iff. }
  exists sel. split; [done|].
  intros r. rewrite Hsel. by setoid_rewrite queuedOrPending_iff.
Qed.

(** Exact arithmetic is one instance of the rounding. *)
Lemma exact_rounding : Float64Rounding (λ q, q).
Proof. split; [done|]. intros k e _ _. reflexivity. Qed.

Lemma getPendingRunByRepo_selects_witness :
  ∃ selected,
    getPendingRunByRepo (λ q, q) (λ _, 100 * Minute) (listed, None)
      = Returns (selected, None)
    ∧ ∀ r, r ∈ selected ↔
           ∃ (j : nat) (created : Time),
             listed !! j = Some r
             ∧ (GetStatus r = "queued" ∨ GetStatus r = "pending")
             ∧ createdAt r = Some created
             ∧ 30 * Minute <= (λ _ : nat, 100 * Minute) j - created.
Proof.
  apply (getPendingRunByRepo_selects (λ q, q) (λ _, 100 * Minute) listed).
  - exact exact_rounding.
  - intros r Hin Hst. unfold listed in Hin.
    do 3 (apply elem_of_cons in Hin as [->|Hin]; [by eexists|]).
    apply elem_of_cons in Hin as [->|Hin]; [|by apply elem_of_nil in Hin].
    (* the nil entry has the empty status *)
    destruct Hst as [Hst|Hst]; discriminate Hst.
Defined.

Example getPendingRunByRepo_listed :
  getPendingRunByRepo (λ q, q) (λ _, 100 * Minute) (listed, None)
  = Returns ([run 11 "queued" 60], None).
Proof. vm_compute. reflexivity. Qed.

(** A queued run without creation time stops the sweep: the field is
    dereferenced. *)
Example getPendingRunByRepo_nil_CreatedAt :
  getPendingRunByRepo (λ q, q) (λ _, 100 * Minute)
    ([Some (WorkflowRun.Build (Some 14) (Some "queued") None)], None)
  = Panics.
Proof. vm_compute. reflexivity. Qed.

Example getPendingRunByRepo_error :
  getPendingRunByRepo (λ q, q) (λ _, 100 * Minute) ([], Some (ErrNew "rate limit"))
  = Returns ([], Some (ErrWrap "failed to list runs" (ErrNew "rate limit"))).
Proof. reflexivity. Qed.

(** *** The recently active repositories *)

Lemma insertStable_perm {A : Type} (less : A → A → bool) (x : A) (l : list A) :
  sort.insertStable less x l ≡ₚ x :: l.
Proof.
  induction l as [|y l IH]; cbn; [done|].
  destruct (less y x); [|done]. rewrite IH. apply Permutation_swap.
Qed.

Lemma SliceStable_perm {A : Type} (less : A → A → bool) (s : list A) :
  sort.SliceStable less s ≡ₚ s.
Proof.
  induction s as [|x s IH]; cbn; [done|].
  fold (sort.SliceStable less s). by rewrite insertStable_perm, IH.
Qed.

Lemma uniqueRepositories_elem_of (recentRunners : list Runner.t) (u : string) :
  u ∈ uniqueRepositories recentRunners
  ↔ ∃ r, r ∈ recentRunners ∧ Runner.RepositoryURL r = u.
Proof.
  unfold uniqueRepositories.
  assert (Hgen : ∀ (acc : gset string),
    u ∈ foldl (λ (seen : gset string) (r : Runner.t),
                 if decide (Runner.RepositoryURL r ∈ seen) then seen
                 else {[Runner.RepositoryURL r]} ∪ seen) acc recentRunners
    ↔ u ∈ acc ∨ ∃ r, r ∈ recentRunners ∧ Runner.RepositoryURL r = u).
  { induction recentRunners as [|r0 rest IH]; intros acc; cbn.
    - split; [by left|]. intros [?|(r & Hin & _)]; [done|by apply elem_of_nil in Hin].
    - rewrite IH. split.
      + intros [Hacc|(r & Hin & Hu)].
        * destruct (decide (Runner.RepositoryURL r0 ∈ acc)); [by left|].
          apply elem_of_union in Hacc as [->%elem_of_singleton|?]; [|by left].
          right. exists r0. split; [by left|done].
        * right. exists r. split; [by right|done].
      + intros [Hacc|(r & Hin & Hu)].
        * left. destruct (decide (Runner.RepositoryURL r0 ∈ acc)); [done|].
          apply elem_of_union. by right.
        * apply elem_of_cons in Hin as [->|Hin].
          -- left. destruct (decide (Runner.RepositoryURL r0 ∈ acc)); [by subst|].
             apply elem_of_union. left. by apply elem_of_singleton.
          -- right. by exists r. }
  rewrite Hgen. split; [|by right].
  intros [Hin|?]; [|done]. by apply not_elem_of_empty in Hin.
Qed.

(** The part of C5 that the code delivers: whatever the visiting order,
    the result holds every repository of the listed runners, each
    exactly once. *)
Lemma getRecentRepositories_dedup (now : Time)
    (ListRunnersLogBySince : Time → list Runner.t * option error)
    (rangeKeys : gset string → list string) (recentRunners : list Runner.t) :
  set_range rangeKeys →
  ListRunnersLogBySince (Add now (-24 * Hour)) = (recentRunners, None) →
  ∃ result,
    getRecentRepositories now ListRunnersLogBySince rangeKeys = (result, None)
    ∧ NoDup result
    ∧ ∀ u, u ∈ result ↔ ∃ r, r ∈ recentRunners ∧ Runner.RepositoryURL r = u.
Proof.
  intros Hrange Hlist. unfold getRecentRepositories. rewrite Hlist.
  eexists. split; [done|]. split.
  - rewrite (Hrange _). apply NoDup_elements.
  - intros u. rewrite (Hrange _), elem_of_elements, uniqueRepositories_elem_of.
    by setoid_rewrite SliceStable_perm.
Qed.

Lemma elements_set_range : set_range elements.
Proof. intros s. reflexivity. Qed.

(** C5 at the failing input. At hour 3 both runners of [auditLog] are
    within the last 24 hours and the sort puts the newer one first; the
    repositories are then read back from the set in the visiting order of
    its keys, and with the legitimate order [elements] the result lists
    [old] before [new]: the repository of the newest runner comes last. *)
Theorem getRecentRepositories_order_lost :
  set_range elements
  ∧ sort.SliceStable (λ ri rj, After (Runner.CreatedAt ri) (Runner.CreatedAt rj))
      (logSince (Add (3 * Hour) (-24 * Hour))).1
    = [runnerAt 2%N "https://github.com/acme/new" 2;
       runnerAt 1%N "https://github.com/acme/old" 1]
  ∧ getRecentRepositories (3 * Hour) logSince elements
    = (["https://github.com/acme/old"; "https://github.com/acme/new"], None).
Proof.
  split; [exact elements_set_range|]. split; vm_compute; reflexivity.
Qed.

(** With another legitimate visiting order the same input gives the
    other sequence: the order of the result is the runtime's. *)
Lemma getRecentRepositories_order_varies :
  set_range (λ s, reverse (elements s))
  ∧ getRecentRepositories (3 * Hour) logSince (λ s, reverse (elements s))
    = (["https://github.com/acme/new"; "https://github.com/acme/old"], None).
Proof.
  split; [|vm_compute; reflexivity].
  intros s. apply reverse_Permutation.
Qed.

End DatastoreFacts.

(** ** The in-memory datastore: the remaining methods *)

Module MemoryExtra.
Import Memory Samples Scenarios MemoryFacts.

Lemma DeleteTarget_eq id m :
  DeleteTarget id m = (None, Build (delete id (targets m)) (jobs m) (runners m)).
Proof. reflexivity. Qed.

Lemma DeleteJob_eq id m :
  DeleteJob id m = (None, Build (targets m) (delete id (jobs m)) (runners m)).
Proof. reflexivity. Qed.

Lemma CreateRunner_eq runner m :
  CreateRunner runner m =
    (None, Build (targets m) (jobs m) (<[Runner.UUID runner := runner]> (runners m))).
Proof. reflexivity. Qed.

Lemma store3_keyed : keyed store3.
Proof.
  repeat split; cbn.
  - intros id t Hl. apply lookup_insert_Some in Hl as [[<- <-]|[_ Hl]]; [done|].
    by apply lookup_singleton_Some in Hl as [<- <-].
  - intros id j Hl. by apply lookup_singleton_Some in Hl as [<- <-].
  - intros id r Hl. by apply lookup_singleton_Some in Hl as [<- <-].
Qed.

(** *** Targets *)

(** X1. [CreateTarget] followed by [GetTarget] of the target's id returns the
    target just stored, also when it replaces an older one; the lookups of
    the other ids, the jobs and the runners are as before. *)
Theorem CreateTarget_then_GetTarget (m : t) (target : Target.t) :
  let m' := (CreateTarget target m).2 in
  GetTarget (Target.UUID target) m' = ((Some target, None), m')
  ∧ (∀ id, id ≠ Target.UUID target → (GetTarget id m').1 = (GetTarget id m).1)
  ∧ jobs m' = jobs m ∧ runners m' = runners m.
Proof.
  cbn zeta. rewrite CreateTarget_eq. cbn [snd]. rewrite GetTarget_eq.
  cbn [targets jobs runners]. rewrite lookup_insert_eq.
  split; [done|]. split; [|done].
  intros id Hne. rewrite !GetTarget_eq. cbn [fst targets].
  by rewrite lookup_insert_ne.
Qed.

Lemma CreateTarget_then_GetTarget_witness :
  let target := activeTarget 1%N "acme" "github.example.org" in
  let m' := (CreateTarget target store2).2 in
  GetTarget 1%N m' = ((Some target, None), m')
  ∧ (GetTarget 2%N m').1 = (GetTarget 2%N store2).1.
Proof.
  destruct (CreateTarget_then_GetTarget store2
              (activeTarget 1%N "acme" "github.example.org")) as (H1 & H2 & _).
  split; [exact H1|]. apply H2. discriminate.
Defined.

(** X2. [DeleteTarget] always reports success; afterwards [GetTarget] of the
    id answers [ErrNotFound]; the other targets, the jobs and the runners
    are untouched, and deleting an id that is not stored changes nothing. *)
Theorem DeleteTarget_then_GetTarget (m : t) (id : uuid.UUID) :
  let m' := (DeleteTarget id m).2 in
  (DeleteTarget id m).1 = None
  ∧ GetTarget id m' = ((None, Some ErrNotFound), m')
  ∧ (∀ id', id' ≠ id → (GetTarget id' m').1 = (GetTarget id' m).1)
  ∧ jobs m' = jobs m ∧ runners m' = runners m
  ∧ (targets m !! id = None → m' = m).
Proof.
  cbn zeta. rewrite DeleteTarget_eq. cbn [fst snd]. rewrite GetTarget_eq.
  cbn [targets jobs runners]. rewrite lookup_delete_eq.
  do 2 (split; [done|]). split; [|do 2 (split; [done|])].
  - intros id' Hne. rewrite !GetTarget_eq. cbn [fst targets].
    by rewrite lookup_delete_ne.
  - intros Hnone. apply t_eq; cbn; [by apply delete_id|done..].
Qed.

Lemma DeleteTarget_then_GetTarget_witness :
  let m' := (DeleteTarget 1%N store2).2 in
  GetTarget 1%N m' = ((None, Some ErrNotFound), m')
  ∧ (GetTarget 2%N m').1 = (GetTarget 2%N store2).1
  ∧ (DeleteTarget 3%N store2).2 = store2.
Proof.
  destruct (DeleteTarget_then_GetTarget store2 1%N) as (_ & H1 & H2 & _).
  destruct (DeleteTarget_then_GetTarget store2 3%N) as (_ & _ & _ & _ & _ & H3).
  split; [exact H1|]. split; [apply H2; discriminate|apply H3; reflexivity].
Defined.

(** X3. [UpdateToken] on a stored target reports success and changes the
    registration token and its expiry, nothing else: the other fields of
    the target, the other targets, the jobs and the runners are as before.
    On an id that is not stored it returns an error and the state is
    unchanged. *)
Theorem UpdateToken_frame (m : t) (targetID : uuid.UUID) (newToken : string)
    (newExpiredAt : Time) :
  let err := (UpdateToken targetID newToken newExpiredAt m).1 in
  let m' := (UpdateToken targetID newToken newExpiredAt m).2 in
  (∀ t, targets m !! targetID = Some t →
     err = None
     ∧ (∃ t', targets m' !! targetID = Some t'
          ∧ Target.GitHubToken t' = newToken
          ∧ Target.TokenExpiredAt t' = newExpiredAt
          ∧ Target.UUID t' = Target.UUID t
          ∧ Target.Scope t' = Target.Scope t
          ∧ Target.GHEDomain t' = Target.GHEDomain t
          ∧ Target.GitHubPersonalToken t' = Target.GitHubPersonalToken t
          ∧ Target.ResourceType t' = Target.ResourceType t
          ∧ Target.RunnerUser t' = Target.RunnerUser t
          ∧ Target.ProviderURL t' = Target.ProviderURL t
          ∧ Target.Status t' = Target.Status t
          ∧ Target.StatusDescription t' = Target.StatusDescription t
          ∧ Target.CreatedAt t' = Target.CreatedAt t
          ∧ Target.UpdatedAt t' = Target.UpdatedAt t)
     ∧ (∀ id', id' ≠ targetID → targets m' !! id' = targets m !! id')
     ∧ jobs m' = jobs m ∧ runners m' = runners m)
  ∧ (targets m !! targetID = None → (∃ e, err = Some e) ∧ m' = m).
Proof.
  cbn zeta. run. split.
  - intros t Ht. rewrite Ht. cbn [fst snd targets jobs runners].
    split; [done|]. split; [|split; [|done]].
    + eexists. split; [apply lookup_insert_eq|]. cbn. repeat split.
    + intros id' Hne. by rewrite lookup_insert_ne.
  - intros Ht. rewrite Ht. cbn. split; [by eexists|done].
Qed.

Lemma UpdateToken_frame_witness :
  let m' := (UpdateToken 1%N "v1.fresh" 7200 store2).2 in
  (UpdateToken 1%N "v1.fresh" 7200 store2).1 = None
  ∧ targets m' !! 2%N = targets store2 !! 2%N
  ∧ (UpdateToken 3%N "v1.fresh" 7200 store2).2 = store2.
Proof.
  destruct (UpdateToken_frame store2 1%N "v1.fresh" 7200) as [H _].
  destruct (H (activeTarget 1%N "acme" "ghe.example.com") eq_refl)
    as (Herr & _ & Hframe & _).
  destruct (UpdateToken_frame store2 3%N "v1.fresh" 7200) as [_ H3].
  split; [exact Herr|]. split; [apply Hframe; discriminate|apply H3; reflexivity].
Defined.

(** X4. [UpdateTargetParam] on a stored target reports success and changes
    the resource type and the provider URL, nothing else; the provider URL
    is marked valid whatever the string, the empty one included. On an id
    that is not stored it returns an error and the state is unchanged. *)
Theorem UpdateTargetParam_frame (m : t) (targetID : uuid.UUID)
    (newResourceType : ResourceType.t) (newProviderURL : string) :
  let err := (UpdateTargetParam targetID newResourceType newProviderURL m).1 in
  let m' := (UpdateTargetParam targetID newResourceType newProviderURL m).2 in
  (∀ t, targets m !! targetID = Some t →
     err = None
     ∧ (∃ t', targets m' !! targetID = Some t'
          ∧ Target.ResourceType t' = newResourceType
          ∧ Target.ProviderURL t' = NullString.Build newProviderURL true
          ∧ Target.UUID t' = Target.UUID t
          ∧ Target.Scope t' = Target.Scope t
          ∧ Target.GHEDomain t' = Target.GHEDomain t
          ∧ Target.GitHubPersonalToken t' = Target.GitHubPersonalToken t
          ∧ Target.GitHubToken t' = Target.GitHubToken t
          ∧ Target.TokenExpiredAt t' = Target.TokenExpiredAt t
          ∧ Target.RunnerUser t' = Target.RunnerUser t
          ∧ Target.Status t' = Target.Status t
          ∧ Target.StatusDescription t' = Target.StatusDescription t
          ∧ Target.CreatedAt t' = Target.CreatedAt t
          ∧ Target.UpdatedAt t' = Target.UpdatedAt t)
     ∧ (∀ id', id' ≠ targetID → targets m' !! id' = targets m !! id')
     ∧ jobs m' = jobs m ∧ runners m' = runners m)
  ∧ (targets m !! targetID = None → (∃ e, err = Some e) ∧ m' = m).
Proof.
  cbn zeta. run. split.
  - intros t Ht. rewrite Ht. cbn [fst snd targets jobs runners].
    split; [done|]. split; [|split; [|done]].
    + eexists. split; [apply lookup_insert_eq|]. cbn. repeat split.
    + intros id' Hne. by rewrite lookup_insert_ne.
  - intros Ht. rewrite Ht. cbn. split; [by eexists|done].
Qed.

Lemma UpdateTargetParam_frame_witness :
  let m' := (UpdateTargetParam 1%N ResourceType.Large EmptyString store2).2 in
  (UpdateTargetParam 1%N ResourceType.Large EmptyString store2).1 = None
  ∧ targets m' !! 2%N = targets store2 !! 2%N
  ∧ (UpdateTargetParam 3%N ResourceType.Large EmptyString store2).2 = store2.
Proof.
  destruct (UpdateTargetParam_frame store2 1%N ResourceType.Large EmptyString) as [H _].
  destruct (H (activeTarget 1%N "acme" "ghe.example.com") eq_refl)
    as (Herr & _ & Hframe & _).
  destruct (UpdateTargetParam_frame store2 3%N ResourceType.Large EmptyString) as [_ H3].
  split; [exact Herr|]. split; [apply Hframe; discriminate|apply H3; reflexivity].
Defined.

(** *** Rows are stored under their own id *)

Lemma keyed_insert {V : Type} (key : V → uuid.UUID) (rows : gmap uuid.UUID V)
    (id : uuid.UUID) (v : V) :
  key v = id →
  (∀ i x, rows !! i = Some x → key x = i) →
  ∀ i x, <[id := v]> rows !! i = Some x → key x = i.
Proof.
  intros Hk Hrows i x Hl.
  apply lookup_insert_Some in Hl as [[<- <-]|[_ Hl]]; [done|by apply Hrows].
Qed.

Lemma keyed_delete {V : Type} (key : V → uuid.UUID) (rows : gmap uuid.UUID V)
    (id : uuid.UUID) :
  (∀ i x, rows !! i = Some x → key x = i) →
  ∀ i x, delete id rows !! i = Some x → key x = i.
Proof.
  intros Hrows i x Hl. apply lookup_delete_Some in Hl as [_ Hl]. by apply Hrows.
Qed.

(** X5. The store that [New] returns has every row under its own id, and
    every method that writes keeps it so: the three inserts take the key
    from the row, the three updates copy the row back under the key it was
    read from, and the deletes only remove. *)
Theorem keyed_preserved (m : t) :
  keyed New.1
  ∧ (keyed m →
     (∀ target, keyed (CreateTarget target m).2)
     ∧ (∀ id, keyed (DeleteTarget id m).2)
     ∧ (∀ id status description, keyed (UpdateTargetStatus id status description m).2)
     ∧ (∀ id token expiredAt, keyed (UpdateToken id token expiredAt m).2)
     ∧ (∀ id resourceType providerURL,
          keyed (UpdateTargetParam id resourceType providerURL m).2)
     ∧ (∀ job, keyed (EnqueueJob job m).2)
     ∧ (∀ id, keyed (DeleteJob id m).2)
     ∧ (∀ runner, keyed (CreateRunner runner m).2)
     ∧ (∀ id deletedAt reason, keyed (DeleteRunner id deletedAt reason m).2)).
Proof.
  split; [by repeat split|].
  intros (Ht & Hj & Hr).
  assert (Hupd : ∀ id (f : Target.t → Target.t),
            (∀ t, Target.UUID (f t) = Target.UUID t) →
            ∀ t, targets m !! id = Some t →
            keyed (Build (<[id := f t]> (targets m)) (jobs m) (runners m))).
  { intros id f Hf t Hl. split; [|done]. cbn.
    apply (keyed_insert Target.UUID); [|done]. rewrite Hf. by apply Ht. }
  repeat apply conj.
  - intros target. rewrite CreateTarget_eq. split; [|done]. cbn.
    by apply (keyed_insert Target.UUID).
  - intros id. rewrite DeleteTarget_eq. split; [|done]. cbn.
    by apply (keyed_delete Target.UUID).
  - intros id status description. run.
    destruct (targets m !! id) as [t|] eqn:Hl; [|done]. cbn [snd].
    apply (Hupd id (λ t, Target.Build (Target.UUID t) _ _ _ _ _ _ _ _ _ _ _ _)); done.
  - intros id token expiredAt. run.
    destruct (targets m !! id) as [t|] eqn:Hl; [|done]. cbn [snd].
    apply (Hupd id (λ t, Target.Build (Target.UUID t) _ _ _ _ _ _ _ _ _ _ _ _)); done.
  - intros id resourceType providerURL. run.
    destruct (targets m !! id) as [t|] eqn:Hl; [|done]. cbn [snd].
    apply (Hupd id (λ t, Target.Build (Target.UUID t) _ _ _ _ _ _ _ _ _ _ _ _)); done.
  - intros job. rewrite EnqueueJob_eq. split; [done|split; [|done]]. cbn.
    by apply (keyed_insert Job.UUID).
  - intros id. rewrite DeleteJob_eq. split; [done|split; [|done]]. cbn.
    by apply (keyed_delete Job.UUID).
  - intros runner. rewrite CreateRunner_eq. split; [done|split; [done|]]. cbn.
    by apply (keyed_insert Runner.UUID).
  - intros id deletedAt reason. rewrite DeleteRunner_eq. split; [done|split; [done|]].
    cbn. by apply (keyed_delete Runner.UUID).
Qed.

Lemma keyed_preserved_witness :
  keyed (CreateRunner runner2 store3).2
  ∧ keyed (UpdateTargetStatus 1%N "err" "quota exceeded" store3).2
  ∧ keyed (DeleteJob 1%N store3).2.
Proof.
  destruct (keyed_preserved store3) as [_ H].
  destruct (H store3_keyed) as (_ & _ & Hs & _ & _ & _ & Hj & Hr & _).
  split; [apply Hr|]. split; [apply Hs|apply Hj].
Defined.

(** *** Listings *)

Section Listings.
Variable range : ∀ V : Type, gmap uuid.UUID V → list (uuid.UUID * V).
Hypothesis Hrange : map_range range.

Lemma range_values_elem_of {V : Type} (rows : gmap uuid.UUID V) (v : V) :
  v ∈ (range V rows).*2 ↔ ∃ id, rows !! id = Some v.
Proof.
  rewrite (Hrange V rows), list_elem_of_fmap. split.
  - intros ([id v'] & -> & Hin). exists id. by apply elem_of_map_to_list.
  - intros (id & Hl). exists (id, v). split; [done|]. by apply elem_of_map_to_list.
Qed.

Lemma range_values_length {V : Type} (rows : gmap uuid.UUID V) :
  length (range V rows).*2 = size rows.
Proof. by rewrite (Hrange V rows), length_fmap, length_map_to_list. Qed.

Lemma range_empty {V : Type} : range V ∅ = [].
Proof.
  apply Permutation_nil_r. by rewrite (Hrange V ∅), map_to_list_empty.
Qed.

Lemma ListTargets_eq m : ListTargets range m = (((range _ (targets m)).*2, None), m).
Proof. reflexivity. Qed.

Lemma ListJobs_eq m : ListJobs range m = (((range _ (jobs m)).*2, None), m).
Proof. reflexivity. Qed.

Lemma ListRunners_eq m : ListRunners range m = (((range _ (runners m)).*2, None), m).
Proof. reflexivity. Qed.

Lemma ListRunnersByTargetID_eq targetID m :
  ListRunnersByTargetID range targetID m =
    ((filter (λ r, Runner.TargetID r = targetID) (range _ (runners m)).*2, None), m).
Proof. reflexivity. Qed.

Lemma ListRunnersLogByUntil_eq until m :
  ListRunnersLogByUntil range until m =
    ((filter (λ r, Before (Runner.CreatedAt r) until = true) (range _ (runners m)).*2,
      None), m).
Proof. reflexivity. Qed.

End Listings.

(** X6. [ListTargets], [ListJobs] and [ListRunners] never fail and do not
    change the state; whatever the order in which the map is visited, the
    list holds the stored rows and no other, and has as many
    elements as the map has entries. *)
Theorem List_all_rows
    (range : ∀ V : Type, gmap uuid.UUID V → list (uuid.UUID * V)) (m : t) :
  map_range range →
  (∃ ts, ListTargets range m = ((ts, None), m)
         ∧ length ts = size (targets m)
         ∧ ∀ t, t ∈ ts ↔ ∃ id, targets m !! id = Some t)
  ∧ (∃ js, ListJobs range m = ((js, None), m)
           ∧ length js = size (jobs m)
           ∧ ∀ j, j ∈ js ↔ ∃ id, jobs m !! id = Some j)
  ∧ (∃ rs, ListRunners range m = ((rs, None), m)
           ∧ length rs = size (runners m)
           ∧ ∀ r, r ∈ rs ↔ ∃ id, runners m !! id = Some r).
Proof.
  intros Hrange. repeat apply conj.
  - eexists. split; [apply ListTargets_eq|].
    split; [by apply range_values_length|intros t; by apply range_values_elem_of].
  - eexists. split; [apply ListJobs_eq|].
    split; [by apply range_values_length|intros t; by apply range_values_elem_of].
  - eexists. split; [apply ListRunners_eq|].
    split; [by apply range_values_length|intros t; by apply range_values_elem_of].
Qed.

Lemma List_all_rows_witness :
  (∃ ts, ListTargets listingRange store3 = ((ts, None), store3)
         ∧ length ts = size (targets store3)
         ∧ ∀ t, t ∈ ts ↔ ∃ id, targets store3 !! id = Some t)
  ∧ (∃ js, ListJobs listingRange store3 = ((js, None), store3)
           ∧ length js = size (jobs store3)
           ∧ ∀ j, j ∈ js ↔ ∃ id, jobs store3 !! id = Some j)
  ∧ (∃ rs, ListRunners listingRange store3 = ((rs, None), store3)
           ∧ length rs = size (runners store3)
           ∧ ∀ r, r ∈ rs ↔ ∃ id, runners store3 !! id = Some r).
Proof. exact (List_all_rows listingRange store3 listingRange_ok). Defined.

(** X7. [ListRunnersByTargetID] never fails and does not change the state; a
    runner is listed if and only if it is stored and its target is the
    requested one. There is no filter on the status: the runners that are
    not listed as deleted are the ones [DeleteRunner] has removed, so that
    after [DeleteRunner] of an id the listing holds only runners stored
    under other ids. *)
Theorem ListRunnersByTargetID_spec
    (range : ∀ V : Type, gmap uuid.UUID V → list (uuid.UUID * V)) (m : t)
    (targetID : uuid.UUID) :
  map_range range →
  (∃ rs, ListRunnersByTargetID range targetID m = ((rs, None), m)
         ∧ ∀ r, r ∈ rs ↔ (∃ id, runners m !! id = Some r)
                          ∧ Runner.TargetID r = targetID)
  ∧ (∀ id deletedAt reason r,
       r ∈ (ListRunnersByTargetID range targetID
              (DeleteRunner id deletedAt reason m).2).1.1 →
       ∃ id', id' ≠ id ∧ runners m !! id' = Some r).
Proof.
  intros Hrange. split.
  - eexists. split; [apply ListRunnersByTargetID_eq|].
    intros r. rewrite list_elem_of_filter, (range_values_elem_of range Hrange).
    tauto.
  - intros id deletedAt reason r. rewrite ListRunnersByTargetID_eq, DeleteRunner_eq.
    cbn [fst snd runners].
    rewrite list_elem_of_filter, (range_values_elem_of range Hrange).
    intros (_ & id' & Hl). apply lookup_delete_Some in Hl as [Hne Hl].
    exists id'. by split.
Qed.

Lemma ListRunnersByTargetID_spec_witness :
  (∃ rs, ListRunnersByTargetID listingRange 7%N store3 = ((rs, None), store3)
         ∧ ∀ r, r ∈ rs ↔ (∃ id, runners store3 !! id = Some r)
                          ∧ Runner.TargetID r = 7%N)
  ∧ (∀ id deletedAt reason r,
       r ∈ (ListRunnersByTargetID listingRange 7%N
              (DeleteRunner id deletedAt reason store3).2).1.1 →
       ∃ id', id' ≠ id ∧ runners store3 !! id' = Some r).
Proof. exact (ListRunnersByTargetID_spec listingRange store3 7%N listingRange_ok). Defined.

(** X8. [ListRunnersLogByUntil] never fails and does not change the state; a
    runner is listed if and only if it is stored and was created strictly
    before the cutoff: a runner created at the cutoff itself is left out. *)
Theorem ListRunnersLogByUntil_spec
    (range : ∀ V : Type, gmap uuid.UUID V → list (uuid.UUID * V)) (m : t)
    (until : Time) :
  map_range range →
  ∃ rs, ListRunnersLogByUntil range until m = ((rs, None), m)
        ∧ ∀ r, r ∈ rs ↔ (∃ id, runners m !! id = Some r)
                         ∧ Runner.CreatedAt r < until.
Proof.
  intros Hrange. eexists. split; [apply ListRunnersLogByUntil_eq|].
  intros r. rewrite list_elem_of_filter, (range_values_elem_of range Hrange).
  unfold Before. rewrite bool_decide_eq_true. tauto.
Qed.

Lemma ListRunnersLogByUntil_spec_witness :
  ∃ rs, ListRunnersLogByUntil listingRange 1000 store3 = ((rs, None), store3)
        ∧ ∀ r, r ∈ rs ↔ (∃ id, runners store3 !! id = Some r)
                         ∧ Runner.CreatedAt r < 1000.
Proof. exact (ListRunnersLogByUntil_spec listingRange store3 1000 listingRange_ok). Defined.

Example ListRunnersLogByUntil_cutoff :
  (ListRunnersLogByUntil listingRange 1000 store3).1 = ([], None)
  ∧ (ListRunnersLogByUntil listingRange 1001 store3).1 = ([runner1], None).
Proof. split; vm_compute; reflexivity. Qed.

(** *** Insert, then delete *)

(** X9. Storing a row under an id that is not in use and deleting that id
    again gives back the state from before, for targets, jobs and runners
    alike. *)
Theorem insert_then_delete_restores (m : t) :
  (∀ target, targets m !! Target.UUID target = None →
     (DeleteTarget (Target.UUID target) (CreateTarget target m).2).2 = m)
  ∧ (∀ job, jobs m !! Job.UUID job = None →
       (DeleteJob (Job.UUID job) (EnqueueJob job m).2).2 = m)
  ∧ (∀ runner deletedAt reason, runners m !! Runner.UUID runner = None →
       (DeleteRunner (Runner.UUID runner) deletedAt reason (CreateRunner runner m).2).2 = m).
Proof.
  repeat apply conj.
  - intros target Hfresh. rewrite CreateTarget_eq, DeleteTarget_eq.
    apply t_eq; cbn; [|done..]. by rewrite delete_insert_eq, delete_id.
  - intros job Hfresh. rewrite EnqueueJob_eq, DeleteJob_eq.
    apply t_eq; cbn; [done| |done]. by rewrite delete_insert_eq, delete_id.
  - intros runner deletedAt reason Hfresh. rewrite CreateRunner_eq, DeleteRunner_eq.
    apply t_eq; cbn; [done..|]. by rewrite delete_insert_eq, delete_id.
Qed.

Lemma insert_then_delete_restores_witness :
  (DeleteTarget 3%N (CreateTarget (activeTarget 3%N "acme/gadget" "ghe.example.com")
                       store3).2).2 = store3
  ∧ (DeleteJob 2%N (EnqueueJob (job42 2%N) store3).2).2 = store3
  ∧ (DeleteRunner 2%N 4000 RunnerStatusDeleted (CreateRunner runner2 store3).2).2 = store3.
Proof.
  destruct (insert_then_delete_restores store3) as (Ht & Hj & Hr).
  split; [|split].
  - apply (Ht (activeTarget 3%N "acme/gadget" "ghe.example.com")). reflexivity.
  - apply (Hj (job42 2%N)). reflexivity.
  - apply (Hr runner2 4000 RunnerStatusDeleted). reflexivity.
Defined.

(** X10. [DeleteJob] always reports success; afterwards no job is pending
    under the id, the other jobs, the targets and the runners are as
    before, and deleting an id that is not pending changes nothing. *)
Theorem DeleteJob_removes (m : t) (id : uuid.UUID) :
  let m' := (DeleteJob id m).2 in
  (DeleteJob id m).1 = None
  ∧ jobs m' !! id = None
  ∧ (∀ id', id' ≠ id → jobs m' !! id' = jobs m !! id')
  ∧ targets m' = targets m ∧ runners m' = runners m
  ∧ (jobs m !! id = None → m' = m).
Proof.
  cbn zeta. rewrite DeleteJob_eq. cbn [fst snd targets jobs runners].
  split; [done|]. split; [apply lookup_delete_eq|].
  split; [|do 2 (split; [done|])].
  - intros id' Hne. by rewrite lookup_delete_ne.
  - intros Hnone. apply t_eq; cbn; [done| |done]. by apply delete_id.
Qed.

Lemma DeleteJob_removes_witness :
  let m' := (DeleteJob 1%N store3).2 in
  jobs m' !! 1%N = None
  ∧ jobs m' !! 2%N = jobs store3 !! 2%N
  ∧ (DeleteJob 2%N store3).2 = store3.
Proof.
  destruct (DeleteJob_removes store3 1%N) as (_ & H1 & H2 & _).
  destruct (DeleteJob_removes store3 2%N) as (_ & _ & _ & _ & _ & H3).
  split; [exact H1|]. split; [apply H2; discriminate|apply H3; reflexivity].
Defined.

(** *** Runners *)

(** X11. [CreateRunner] always reports success; [GetRunner] of the runner's id
    then returns the runner just stored; the other runners, the targets
    and the jobs are as before. The number of runners grows by one when
    the id was free, and stays when the id was taken: the older row is
    replaced. *)
Theorem CreateRunner_then_GetRunner (m : t) (runner : Runner.t) :
  let m' := (CreateRunner runner m).2 in
  (CreateRunner runner m).1 = None
  ∧ GetRunner (Runner.UUID runner) m' = ((Some runner, None), m')
  ∧ (∀ id, id ≠ Runner.UUID runner → (GetRunner id m').1 = (GetRunner id m).1)
  ∧ targets m' = targets m ∧ jobs m' = jobs m
  ∧ (runners m !! Runner.UUID runner = None →
     size (runners m') = S (size (runners m)))
  ∧ (is_Some (runners m !! Runner.UUID runner) →
     size (runners m') = size (runners m)).
Proof.
  cbn zeta. rewrite CreateRunner_eq. cbn [fst snd]. rewrite GetRunner_eq.
  cbn [targets jobs runners]. rewrite lookup_insert_eq.
  do 2 (split; [done|]). split; [|do 2 (split; [done|]); split].
  - intros id Hne. rewrite !GetRunner_eq. cbn [fst runners].
    by rewrite lookup_insert_ne.
  - intros Hfresh. by apply map_size_insert_None.
  - intros Htaken. by apply map_size_insert_Some.
Qed.

Lemma CreateRunner_then_GetRunner_witness :
  let m' := (CreateRunner runner2 store3).2 in
  GetRunner 2%N m' = ((Some runner2, None), m')
  ∧ (GetRunner 1%N m').1 = (GetRunner 1%N store3).1
  ∧ size (runners m') = S (size (runners store3))
  ∧ size (runners (CreateRunner runner1 store3).2) = size (runners store3).
Proof.
  destruct (CreateRunner_then_GetRunner store3 runner2) as (_ & H1 & H2 & _ & _ & H3 & _).
  destruct (CreateRunner_then_GetRunner store3 runner1) as (_ & _ & _ & _ & _ & _ & H4).
  split; [exact H1|]. split; [apply H2; discriminate|].
  split; [apply H3; reflexivity|apply H4; by eexists].
Defined.

(** *** Lookup by scope *)

Lemma scanScope_none (visited : list (uuid.UUID * Target.t)) scope :
  scanScope visited scope = (None, Some ErrNotFound) →
  ∀ id t, (id, t) ∈ visited → Target.Scope t ≠ scope.
Proof.
  induction visited as [|[id0 t0] rest IH]; intros Hnf id t Hin.
  - by apply elem_of_nil in Hin.
  - cbn in Hnf. case_bool_decide as Hs0; [discriminate|].
    apply elem_of_cons in Hin as [[= -> ->]|Hin]; [done|by apply (IH Hnf id)].
Qed.

(** X12. The in-memory [GetTargetByScope] never changes the state; it finds a
    target if and only if some stored target has the requested scope, and
    what it finds is a stored target of that scope. When exactly one
    stored target has the scope, that target is the answer whatever the
    order in which the map is visited. *)
Theorem GetTargetByScope_found_iff
    (range : ∀ V : Type, gmap uuid.UUID V → list (uuid.UUID * V)) (m : t)
    (scope : string) :
  map_range range →
  (GetTargetByScope range scope m).2 = m
  ∧ ((∃ t, (GetTargetByScope range scope m).1 = (Some t, None))
     ↔ ∃ id t, targets m !! id = Some t ∧ Target.Scope t = scope)
  ∧ (∀ t err, (GetTargetByScope range scope m).1 = (Some t, err) →
       Target.Scope t = scope ∧ ∃ id, targets m !! id = Some t)
  ∧ (∀ id t, targets m !! id = Some t → Target.Scope t = scope →
       (∀ id' t', targets m !! id' = Some t' → Target.Scope t' = scope → t' = t) →
       (GetTargetByScope range scope m).1 = (Some t, None)).
Proof.
  intros Hrange.
  assert (Hin : ∀ id t, (id, t) ∈ range _ (targets m) ↔ targets m !! id = Some t).
  { intros id t. rewrite (Hrange _ (targets m)). apply elem_of_map_to_list. }
  assert (Hsound : ∀ t err, scanScope (range _ (targets m)) scope = (Some t, err) →
            err = None ∧ Target.Scope t = scope ∧ ∃ id, targets m !! id = Some t).
  { intros t err Hs. apply scanScope_found in Hs as (-> & Hsc & id & Hi).
    repeat split; [done|]. exists id. by apply Hin. }
  assert (Hcomplete : ∀ id t, targets m !! id = Some t → Target.Scope t = scope →
            ∃ t', scanScope (range _ (targets m)) scope = (Some t', None)).
  { intros id t Hl Hsc.
    destruct (scanScope_cases (range _ (targets m)) scope) as [Hnf|Hf]; [|done].
    exfalso. apply (scanScope_none _ _ Hnf id t); [by apply Hin|done]. }
  run. split; [done|]. split; [|split].
  - split.
    + intros (t & Hs). destruct (Hsound t None Hs) as (_ & Hsc & id & Hl). by exists id, t.
    + intros (id & t & Hl & Hsc). by apply (Hcomplete id t).
  - intros t err Hs. destruct (Hsound t err Hs) as (_ & ? & ?). done.
  - intros id t Hl Hsc Huniq. destruct (Hcomplete id t Hl Hsc) as (t' & Hs).
    destruct (Hsound t' None Hs) as (_ & Hsc' & id' & Hl').
    by rewrite Hs, (Huniq id' t' Hl' Hsc').
Qed.

Lemma GetTargetByScope_found_iff_witness :
  (GetTargetByScope listingRange "acme/widget" store2).1
  = (Some (activeTarget 2%N "acme/widget" "ghe.example.com"), None).
Proof.
  destruct (GetTargetByScope_found_iff listingRange store2 "acme/widget" listingRange_ok)
    as (_ & _ & _ & Huniq).
  apply (Huniq 2%N); [reflexivity..|].
  intros id' t' Hl Hsc. unfold store2 in Hl. cbn in Hl.
  apply lookup_insert_Some in Hl as [[_ <-]|[_ Hl]]; [done|].
  apply lookup_singleton_Some in Hl as [_ <-]. discriminate.
Defined.

(** *** The empty store *)

(** X13. [New] returns a store and no error; in that store every lookup
    answers [ErrNotFound] and every listing is empty, whatever is asked. *)
Theorem New_is_empty
    (range : ∀ V : Type, gmap uuid.UUID V → list (uuid.UUID * V)) :
  map_range range →
  let m := New.1 in
  New.2 = None
  ∧ (∀ id, GetTarget id m = ((None, Some ErrNotFound), m))
  ∧ (∀ scope, GetTargetByScope range scope m = ((None, Some ErrNotFound), m))
  ∧ (∀ id, GetRunner id m = ((None, Some ErrNotFound), m))
  ∧ ListTargets range m = (([], None), m)
  ∧ ListJobs range m = (([], None), m)
  ∧ ListRunners range m = (([], None), m)
  ∧ (∀ targetID, ListRunnersByTargetID range targetID m = (([], None), m))
  ∧ (∀ until, ListRunnersLogByUntil range until m = (([], None), m)).
Proof.
  intros Hrange. cbn zeta. unfold New. cbn [fst snd].
  repeat apply conj; try done.
  - intros scope. run. by rewrite (range_empty range Hrange).
  - rewrite ListTargets_eq. cbn [targets]. by rewrite (range_empty range Hrange).
  - rewrite ListJobs_eq. cbn [jobs]. by rewrite (range_empty range Hrange).
  - rewrite ListRunners_eq. cbn [runners]. by rewrite (range_empty range Hrange).
  - intros targetID. rewrite ListRunnersByTargetID_eq. cbn [runners].
    by rewrite (range_empty range Hrange).
  - intros cutoff. rewrite ListRunnersLogByUntil_eq. cbn [runners].
    by rewrite (range_empty range Hrange).
Qed.

Lemma New_is_empty_witness :
  GetTarget 1%N New.1 = ((None, Some ErrNotFound), New.1)
  ∧ ListRunners listingRange New.1 = (([], None), New.1).
Proof.
  destruct (New_is_empty listingRange listingRange_ok)
    as (_ & H1 & _ & _ & _ & _ & H2 & _).
  split; [apply H1|exact H2].
Defined.

(** *** Lookup by scope, in the two backends *)






End MemoryExtra.

(** ** The relational backend *)

Module MySQLExtra.
Import Samples Scenarios.

Lemma errors_Is_refl (e : error) : errors_Is e e = true.
Proof. destruct e; cbn; by rewrite bool_decide_eq_true_2. Qed.

Lemma errors_Is_wrap (msg : string) (e target : error) :
  errors_Is e target = true → errors_Is (ErrWrap msg e) target = true.
Proof. intros H. cbn. rewrite H. by case_bool_decide. Qed.

Lemma append_cons (c : Ascii.ascii) (s1 s2 : string) :
  String c s1 +:+ s2 = String c (s1 +:+ s2).
Proof. reflexivity. Qed.

Lemma append_assoc (s1 s2 s3 : string) : (s1 +:+ s2) +:+ s3 = s1 +:+ s2 +:+ s3.
Proof.
  induction s1 as [|c s1 IH]; [done|]. by rewrite !append_cons, IH.
Qed.

Lemma length_append (s1 s2 : string) :
  String.length (s1 +:+ s2) = (String.length s1 + String.length s2)%nat.
Proof.
  induction s1 as [|c s1 IH]; [done|]. rewrite append_cons. cbn. by rewrite IH.
Qed.

(** X14. What the two lookups of the relational backend make of the
    database's answer: a row is returned as it is, with a nil error; an
    error whose chain holds [sql.ErrNoRows] becomes [ErrNotFound]; any
    other error comes back wrapped, so that it is not [ErrNotFound] and
    [errors.Is] still finds the original. *)
Theorem MySQL_lookup_outcomes
    (GetContext : string → list MySQL.arg → Target.t + error)
    (id : uuid.UUID) (gheDomain scope : string) :
  let byId := GetContext MySQL.uuidQuery [MySQL.ArgUUID id] in
  let byScope := GetContext (MySQL.scopeQuery gheDomain scope) [] in
  (∀ t, byId = inl t → MySQL.GetTarget GetContext id = (Some t, None))
  ∧ (∀ t, byScope = inl t →
       MySQL.GetTargetByScope GetContext gheDomain scope = (Some t, None))
  ∧ (∀ err, byId = inr err → errors_Is err ErrNoRows = false →
       ∃ e, MySQL.GetTarget GetContext id = (None, Some e)
            ∧ e ≠ ErrNotFound ∧ errors_Is e err = true)
  ∧ (∀ err, byScope = inr err → errors_Is err ErrNoRows = false →
       ∃ e, MySQL.GetTargetByScope GetContext gheDomain scope = (None, Some e)
            ∧ e ≠ ErrNotFound ∧ errors_Is e err = true).
Proof.
  cbn zeta. unfold MySQL.GetTarget, MySQL.GetTargetByScope. repeat apply conj.
  - by intros t ->.
  - by intros t ->.
  - intros err -> Hno. cbn. rewrite Hno. eexists. split; [done|].
    split; [done|]. apply errors_Is_wrap, errors_Is_refl.
  - intros err -> Hno. cbn. rewrite Hno. eexists. split; [done|].
    split; [done|]. apply errors_Is_wrap, errors_Is_refl.
Qed.

Lemma MySQL_lookup_outcomes_witness :
  let down : string → list MySQL.arg → Target.t + error := λ _ _, inr badConn in
  let up : string → list MySQL.arg → Target.t + error :=
    λ _ _, inl (activeTarget 1%N "acme" "ghe.example.com") in
  MySQL.GetTarget up 1%N = (Some (activeTarget 1%N "acme" "ghe.example.com"), None)
  ∧ ∃ e, MySQL.GetTargetByScope down "ghe.example.com" "acme" = (None, Some e)
         ∧ e ≠ ErrNotFound ∧ errors_Is e badConn = true.
Proof.
  intros down up. split.
  - destruct (MySQL_lookup_outcomes up 1%N "ghe.example.com" "acme") as (H & _).
    apply H. reflexivity.
  - destruct (MySQL_lookup_outcomes down 1%N "ghe.example.com" "acme") as (_ & _ & _ & H).
    apply (H badConn); reflexivity.
Defined.

(** X15. [CreateTarget] and [DeleteTarget] of the relational backend execute
    one statement, which binds as many arguments as it has placeholders;
    they return nil exactly when the statement ran without error, and
    otherwise an error in whose chain [errors.Is] finds the database's. *)
Theorem MySQL_write_outcomes (target : Target.t) (id : uuid.UUID) :
  (∃ query args,
     placeholders query = length args
     ∧ ∀ ExecContext : string → list MySQL.arg → option error,
         (MySQL.CreateTarget ExecContext target = None ↔ ExecContext query args = None)
         ∧ ∀ err, ExecContext query args = Some err →
             ∃ e, MySQL.CreateTarget ExecContext target = Some e
                  ∧ errors_Is e err = true)
  ∧ (∃ query args,
       placeholders query = length args
       ∧ ∀ ExecContext : string → list MySQL.arg → option error,
           (MySQL.DeleteTarget ExecContext id = None ↔ ExecContext query args = None)
           ∧ ∀ err, ExecContext query args = Some err →
               ∃ e, MySQL.DeleteTarget ExecContext id = Some e
                    ∧ errors_Is e err = true).
Proof.
  split.
  - exists "INSERT INTO targets(uuid, scope, ghe_domain, github_personal_token, resource_type, runner_user) VALUES (?, ?, ?, ?, ?, ?)",
      [MySQL.ArgUUID (Target.UUID target); MySQL.ArgString (Target.Scope target);
       MySQL.ArgNullString (Target.GHEDomain target);
       MySQL.ArgString (Target.GitHubPersonalToken target);
       MySQL.ArgResourceType (Target.ResourceType target);
       MySQL.ArgString (Target.RunnerUser target)].
    split; [reflexivity|]. intros ExecContext. unfold MySQL.CreateTarget. split.
    + by destruct (ExecContext _ _).
    + intros err ->. eexists. split; [done|]. apply errors_Is_wrap, errors_Is_refl.
  - exists "DELETE FROM targets WHERE uuid = ?", [MySQL.ArgUUID id].
    split; [reflexivity|]. intros ExecContext. unfold MySQL.DeleteTarget. split.
    + by destruct (ExecContext _ _).
    + intros err ->. eexists. split; [done|]. apply errors_Is_wrap, errors_Is_refl.
Qed.

Lemma MySQL_write_outcomes_witness :
  let down : string → list MySQL.arg → option error := λ _ _, Some badConn in
  ∃ e, MySQL.DeleteTarget down 1%N = Some e ∧ errors_Is e badConn = true.
Proof.
  intros down.
  destruct (MySQL_write_outcomes (activeTarget 1%N "acme" "ghe.example.com") 1%N)
    as (_ & query & args & _ & H).
  destruct (H down) as [_ Herr]. apply (Herr badConn). reflexivity.
Defined.

(** X16. The [INSERT] of [CreateTarget] carries six columns: id, scope,
    CI-domain, personal token, resource type and runner user. Two targets
    that agree on these give the same call, whatever their status, status
    description, provider URL, registration token and timestamps. *)
Theorem MySQL_CreateTarget_columns
    (ExecContext : string → list MySQL.arg → option error) (t1 t2 : Target.t) :
  Target.UUID t1 = Target.UUID t2 →
  Target.Scope t1 = Target.Scope t2 →
  Target.GHEDomain t1 = Target.GHEDomain t2 →
  Target.GitHubPersonalToken t1 = Target.GitHubPersonalToken t2 →
  Target.ResourceType t1 = Target.ResourceType t2 →
  Target.RunnerUser t1 = Target.RunnerUser t2 →
  MySQL.CreateTarget ExecContext t1 = MySQL.CreateTarget ExecContext t2.
Proof.
  intros H1 H2 H3 H4 H5 H6. unfold MySQL.CreateTarget.
  by rewrite H1, H2, H3, H4, H5, H6.
Qed.

Lemma MySQL_CreateTarget_columns_witness :
  let t1 := activeTarget 1%N "acme" "ghe.example.com" in
  let t2 :=
    Target.Build 1%N "acme" (NullString.Build "ghe.example.com" true) "ghp_token"
      "other" 1 ResourceType.Nano "runner" (NullString.Build "http://provider" true)
      "err" (NullString.Build "quota exceeded" true) 5 6 in
  let down : string → list MySQL.arg → option error := λ _ _, Some badConn in
  MySQL.CreateTarget down t1 = MySQL.CreateTarget down t2.
Proof.
  intros t1 t2 down.
  apply (MySQL_CreateTarget_columns down t1 t2); reflexivity.
Defined.

(** X17. [GetTargetByScope] splices scope and CI-domain into the text of the
    query as they are. The request for scope [s] on CI-domain [d] and the
    request, without CI-domain, for the scope that continues [s] with a
    quote and the CI-domain clause are the same query, and so have the
    same answer. *)
Theorem MySQL_scope_spliced
    (GetContext : string → list MySQL.arg → Target.t + error) (d s : string) :
  d ≠ EmptyString →
  let crafted := s +:+ MySQL.dquote +:+ " AND ghe_domain = " +:+ MySQL.dquote +:+ d in
  crafted ≠ s
  ∧ MySQL.scopeQuery EmptyString crafted = MySQL.scopeQuery d s
  ∧ MySQL.GetTargetByScope GetContext EmptyString crafted
    = MySQL.GetTargetByScope GetContext d s.
Proof.
  intros Hd. cbn zeta.
  assert (Hq : MySQL.scopeQuery EmptyString
                 (s +:+ MySQL.dquote +:+ " AND ghe_domain = " +:+ MySQL.dquote +:+ d)
               = MySQL.scopeQuery d s).
  { unfold MySQL.scopeQuery.
    rewrite (bool_decide_eq_true_2 (d ≠ EmptyString)) by done.
    rewrite (bool_decide_eq_false_2 (EmptyString ≠ EmptyString)) by (intros H; by apply H).
    by rewrite !append_assoc. }
  split; [|split; [exact Hq|]].
  - intros Heq. apply (f_equal String.length) in Heq.
    rewrite !length_append in Heq. cbn in Heq. lia.
  - unfold MySQL.GetTargetByScope. by rewrite Hq.
Qed.

Lemma MySQL_scope_spliced_witness :
  MySQL.GetTargetByScope noRows EmptyString
    ("acme" +:+ MySQL.dquote +:+ " AND ghe_domain = " +:+ MySQL.dquote
       +:+ "ghe.example.com")
  = MySQL.GetTargetByScope noRows "ghe.example.com" "acme".
Proof.
  destruct (MySQL_scope_spliced noRows "ghe.example.com" "acme") as (_ & _ & H);
    [discriminate|exact H].
Defined.

End MySQLExtra.

(** ** The pending-run helpers: outcomes and composition *)

Module DatastoreExtra.
Import time github datastore Samples Scenarios DatastoreFacts.

Section Loop.
Variable rnd : Q → Q.
Variable clock : nat → Time.

Lemma pendingLoop_Panics (runs : list (option WorkflowRun.t)) :
  ∀ (i : nat) (pendingRuns : list (option WorkflowRun.t)),
  pendingLoop rnd clock i runs pendingRuns = Panics
  ↔ ∃ r, r ∈ runs ∧ queuedOrPending r = true ∧ createdAt r = None.
Proof.
  induction runs as [|r rest IH]; intros i acc; cbn [pendingLoop].
  - split; [discriminate|]. by intros (r & ?%elem_of_nil & _).
  - destruct (queuedOrPending r) eqn:Hq.
    + destruct (createdAt r) as [created|] eqn:Hc.
      * assert (Hrest : (∃ r', r' ∈ r :: rest ∧ queuedOrPending r' = true
                                ∧ createdAt r' = None)
                        ↔ ∃ r', r' ∈ rest ∧ queuedOrPending r' = true
                                ∧ createdAt r' = None).
        { split; intros (r' & Hin & Hq' & Hc').
          - apply elem_of_cons in Hin as [->|Hin]; [congruence|by exists r'].
          - exists r'. split; [by right|done]. }
        rewrite Hrest. destruct (overOldMinutes rnd (clock i) created); apply IH.
      * split; [|done]. intros _. exists r. split; [by left|done].
    + rewrite IH. split; intros (r' & Hin & Hq' & Hc').
      * exists r'. split; [by right|done].
      * apply elem_of_cons in Hin as [->|Hin]; [congruence|by exists r'].
Qed.

Lemma pendingLoop_sublist (runs : list (option WorkflowRun.t)) :
  ∀ (i : nat) (pendingRuns out : list (option WorkflowRun.t)),
  pendingLoop rnd clock i runs pendingRuns = Returns out →
  ∃ selected, out = pendingRuns ++ selected
              ∧ selected `sublist_of` runs
              ∧ Forall (λ r, queuedOrPending r = true ∧ is_Some (createdAt r)) selected.
Proof.
  induction runs as [|r rest IH]; intros i acc out; cbn [pendingLoop].
  - intros [= <-]. exists []. by rewrite app_nil_r.
  - destruct (queuedOrPending r) eqn:Hq.
    + destruct (createdAt r) as [created|] eqn:Hc; [|discriminate].
      destruct (overOldMinutes rnd (clock i) created).
      * intros Hl. destruct (IH _ _ _ Hl) as (sel & -> & Hsub & Hall).
        exists (r :: sel). rewrite <- app_assoc. split; [done|].
        split; [by apply sublist_skip|]. apply Forall_cons. by rewrite Hc.
      * intros Hl. destruct (IH _ _ _ Hl) as (sel & -> & Hsub & Hall).
        exists sel. split; [done|]. split; [by apply sublist_cons|done].
    + intros Hl. destruct (IH _ _ _ Hl) as (sel & -> & Hsub & Hall).
      exists sel. split; [done|]. split; [by apply sublist_cons|done].
Qed.
End Loop.

(** X18. [getPendingRunByRepo] panics exactly when the listing succeeded and
    holds a queued or pending run without creation time; when the listing
    failed it returns no run and an error that wraps the listing's, without
    looking at any run. *)
Theorem getPendingRunByRepo_outcomes (rnd : Q → Q) (clock : nat → Time)
    (runs : list (option WorkflowRun.t)) :
  (getPendingRunByRepo rnd clock (runs, None) = Panics
   ↔ ∃ r, r ∈ runs
          ∧ (GetStatus r = "queued" ∨ GetStatus r = "pending")
          ∧ createdAt r = None)
  ∧ (∀ err, ∃ e, getPendingRunByRepo rnd clock (runs, Some err) = Returns ([], Some e)
                 ∧ errors_Is e err = true).
Proof.
  split.
  - unfold getPendingRunByRepo.
    setoid_rewrite <- queuedOrPending_iff. rewrite <- (pendingLoop_Panics rnd clock runs 0 []).
    by destruct (pendingLoop rnd clock 0 runs []).
  - intros err. eexists. split; [done|].
    apply MySQLExtra.errors_Is_wrap, MySQLExtra.errors_Is_refl.
Qed.

Lemma getPendingRunByRepo_outcomes_witness :
  getPendingRunByRepo (λ q, q) (λ _, 100 * Minute)
    (listed ++ [runWithoutTime], None) = Panics.
Proof.
  destruct (getPendingRunByRepo_outcomes (λ q, q) (λ _, 100 * Minute)
              (listed ++ [runWithoutTime])) as [[_ H] _].
  apply H. exists runWithoutTime. split.
  - apply elem_of_app. right. by left.
  - split; [by left|reflexivity].
Defined.

(** X19. What [getPendingRunByRepo] returns is cut out of the listing: the
    selected runs are listed runs, in the order of the listing and no more
    often than listed; none of them is nil, each is queued or pending and
    carries a creation time; and the error is nil. *)
Theorem getPendingRunByRepo_sublist (rnd : Q → Q) (clock : nat → Time)
    (runs selected : list (option WorkflowRun.t)) (err : option error) :
  getPendingRunByRepo rnd clock (runs, None) = Returns (selected, err) →
  err = None
  ∧ selected `sublist_of` runs
  ∧ (length selected ≤ length runs)%nat
  ∧ ∀ r, r ∈ selected →
         ∃ run created, r = Some run
                        ∧ (GetStatus r = "queued" ∨ GetStatus r = "pending")
                        ∧ WorkflowRun.CreatedAt run = Some created.
Proof.
  unfold getPendingRunByRepo.
  destruct (pendingLoop rnd clock 0 runs []) as [out|] eqn:Hl; [|discriminate].
  intros [= <- <-].
  destruct (pendingLoop_sublist rnd clock runs 0 [] out Hl) as (sel & -> & Hsub & Hall).
  cbn [app]. split; [done|]. split; [done|].
  split; [by apply sublist_length|].
  intros r Hin. rewrite Forall_forall in Hall.
  destruct (Hall r Hin) as [Hq [created Hc]].
  destruct r as [run|]; [|discriminate].
  exists run, created. split; [done|]. split; [by apply queuedOrPending_iff|done].
Qed.

Lemma getPendingRunByRepo_sublist_witness :
  [run 11 "queued" 60] `sublist_of` listed
  ∧ (length [run 11 "queued" 60] ≤ length listed)%nat.
Proof.
  destruct (getPendingRunByRepo_sublist (λ q, q) (λ _, 100 * Minute) listed
              [run 11 "queued" 60] None) as (_ & Hsub & Hlen & _).
  - vm_compute. reflexivity.
  - split; [exact Hsub|exact Hlen].
Defined.

(** X20. The age test of the sweep, for any float64 rounding: a run created
    exactly 30 minutes ago passes, a run one nanosecond younger does not,
    and a run that passes at one reading of the clock passes at every
    later reading. *)
Theorem overOldMinutes_threshold (rnd : Q → Q) (created now later : Time) :
  Float64Rounding rnd →
  overOldMinutes rnd (created + 30 * Minute) created = true
  ∧ overOldMinutes rnd (created + 30 * Minute - 1) created = false
  ∧ (now <= later → overOldMinutes rnd now created = true →
     overOldMinutes rnd later created = true).
Proof.
  intros Hrnd. split; [|split].
  - apply (overOldMinutes_iff rnd Hrnd). lia.
  - apply not_true_is_false. rewrite (overOldMinutes_iff rnd Hrnd). lia.
  - rewrite !(overOldMinutes_iff rnd Hrnd). lia.
Qed.

Lemma overOldMinutes_threshold_witness :
  overOldMinutes (λ q, q) (60 * Minute + 30 * Minute) (60 * Minute) = true
  ∧ overOldMinutes (λ q, q) (60 * Minute + 30 * Minute - 1) (60 * Minute) = false
  ∧ overOldMinutes (λ q, q) (100 * Minute) (60 * Minute) = true.
Proof.
  destruct (overOldMinutes_threshold (λ q, q) (60 * Minute) (60 * Minute + 30 * Minute)
              (100 * Minute) exact_rounding) as (H1 & H2 & H3).
  split; [exact H1|]. split; [exact H2|]. apply H3; [|exact H1].
  unfold Minute, Second, Nanosecond. lia.
Defined.

(** *** The recently active repositories *)

Lemma uniqueRepositories_size (recentRunners : list Runner.t) :
  (size (uniqueRepositories recentRunners) ≤ length recentRunners)%nat.
Proof.
  unfold uniqueRepositories.
  assert (Hgen : ∀ acc : gset string,
    (size (foldl (λ (seen : gset string) (r : Runner.t),
                    if decide (Runner.RepositoryURL r ∈ seen) then seen
                    else {[Runner.RepositoryURL r]} ∪ seen) acc recentRunners)
     ≤ size acc + length recentRunners)%nat).
  { induction recentRunners as [|r rest IH]; intros acc; cbn; [lia|].
    etrans; [apply IH|].
    destruct (decide (Runner.RepositoryURL r ∈ acc)) as [|Hnew]; [lia|].
    rewrite size_union, size_singleton; [lia|].
    intros u ->%elem_of_singleton. done. }
  etrans; [apply Hgen|]. rewrite size_empty. lia.
Qed.

(** X22. [getRecentRepositories] fails exactly when the datastore does, then
    with no repository and an error that wraps the datastore's. When the
    datastore answers, the result has at most as many repositories as there
    are recent runners, and is empty exactly when there is none. *)
Theorem getRecentRepositories_outcomes (now : Time)
    (ListRunnersLogBySince : Time → list Runner.t * option error)
    (rangeKeys : gset string → list string) :
  set_range rangeKeys →
  let answer := ListRunnersLogBySince (Add now (-24 * Hour)) in
  (∀ err, answer.2 = Some err →
     ∃ e, getRecentRepositories now ListRunnersLogBySince rangeKeys = ([], Some e)
          ∧ errors_Is e err = true)
  ∧ (answer.2 = None →
     ∃ result,
       getRecentRepositories now ListRunnersLogBySince rangeKeys = (result, None)
       ∧ (length result ≤ length answer.1)%nat
       ∧ (result = [] ↔ answer.1 = [])).
Proof.
  intros Hrange. cbn zeta. unfold getRecentRepositories.
  destruct (ListRunnersLogBySince (Add now (-24 * Hour))) as [runners [err|]]; cbn [fst snd].
  - split; [|discriminate]. intros ? [= <-]. eexists. split; [done|].
    apply MySQLExtra.errors_Is_wrap, MySQLExtra.errors_Is_refl.
  - split; [discriminate|]. intros _. eexists. split; [done|]. split.
    + rewrite (Hrange _). fold (size (uniqueRepositories
        (sort.SliceStable (λ ri rj, After (Runner.CreatedAt ri) (Runner.CreatedAt rj))
           runners))).
      etrans; [apply uniqueRepositories_size|]. by rewrite SliceStable_perm.
    + split.
      * intros Hnil. destruct runners as [|r rest]; [done|]. exfalso.
        assert (Hin : Runner.RepositoryURL r ∈ rangeKeys (uniqueRepositories
                  (sort.SliceStable
                     (λ ri rj, After (Runner.CreatedAt ri) (Runner.CreatedAt rj))
                     (r :: rest)))).
        { rewrite (Hrange _), elem_of_elements, uniqueRepositories_elem_of.
          exists r. split; [|done]. rewrite SliceStable_perm. by left. }
        rewrite Hnil in Hin. by apply elem_of_nil in Hin.
      * intros ->. apply Permutation_nil_r. by rewrite (Hrange _).
Qed.

Lemma getRecentRepositories_outcomes_witness :
  (∃ result,
     getRecentRepositories (3 * Hour) logSince elements = (result, None)
     ∧ (length result ≤ length (logSince (Add (3 * Hour)%Z (-24 * Hour)%Z)).1)%nat
     ∧ (result = [] ↔ (logSince (Add (3 * Hour) (-24 * Hour))).1 = []))
  ∧ ∃ e, getRecentRepositories (3 * Hour) (λ _, ([], Some badConn)) elements
         = ([], Some e)
         ∧ errors_Is e badConn = true.
Proof.
  split.
  - destruct (getRecentRepositories_outcomes (3 * Hour) logSince elements
                elements_set_range) as [_ H].
    apply H. reflexivity.
  - destruct (getRecentRepositories_outcomes (3 * Hour) (λ _, ([], Some badConn))
                elements elements_set_range) as [H _].
    apply (H badConn). reflexivity.
Defined.

(** X21. Each repository of the recent runners is in the result exactly once,
    and nothing else is; which repositories are returned depends neither
    on the order in which the datastore lists the runners nor on the order
    in which the set is visited: two runs on the same runners return the
    same repositories, possibly in another sequence. *)
Theorem getRecentRepositories_each_once (now : Time)
    (ListRunnersLogBySince : Time → list Runner.t * option error)
    (rangeKeys : gset string → list string) (recentRunners : list Runner.t) :
  set_range rangeKeys →
  ListRunnersLogBySince (Add now (-24 * Hour)) = (recentRunners, None) →
  ∃ result,
    getRecentRepositories now ListRunnersLogBySince rangeKeys = (result, None)
    ∧ NoDup result
    ∧ (∀ u, u ∈ result ↔ ∃ r, r ∈ recentRunners ∧ Runner.RepositoryURL r = u)
    ∧ ∀ (ListRunnersLogBySince' : Time → list Runner.t * option error)
        (rangeKeys' : gset string → list string) (recentRunners' : list Runner.t),
        set_range rangeKeys' →
        ListRunnersLogBySince' (Add now (-24 * Hour)) = (recentRunners', None) →
        recentRunners' ≡ₚ recentRunners →
        (getRecentRepositories now ListRunnersLogBySince' rangeKeys').1 ≡ₚ result.
Proof.
  intros Hrange Hlist.
  destruct (getRecentRepositories_dedup now ListRunnersLogBySince rangeKeys
              recentRunners Hrange Hlist) as (result & Hres & Hnd & Hin).
  exists result. do 3 (split; [done|]).
  intros L' rangeKeys' runners' Hrange' Hlist' Hperm.
  destruct (getRecentRepositories_dedup now L' rangeKeys' runners' Hrange' Hlist')
    as (result' & -> & Hnd' & Hin').
  cbn [fst]. apply NoDup_Permutation; [done..|].
  intros u. rewrite Hin, Hin'. by setoid_rewrite Hperm.
Qed.

Lemma getRecentRepositories_each_once_witness :
  (getRecentRepositories (3 * Hour) (λ _, (reverse auditLog, None))
     (λ s, reverse (elements s))).1
  ≡ₚ ["https://github.com/acme/old"; "https://github.com/acme/new"].
Proof.
  destruct (getRecentRepositories_each_once (3 * Hour) logSince elements auditLog
              elements_set_range) as (result & Hres & _ & _ & Hother).
  - vm_compute. reflexivity.
  - assert (Hr : result = ["https://github.com/acme/old"; "https://github.com/acme/new"]).
    { assert (He : getRecentRepositories (3 * Hour) logSince elements
                   = (["https://github.com/acme/old"; "https://github.com/acme/new"], None))
        by (vm_compute; reflexivity).
      rewrite He in Hres. by injection Hres as <-. }
    rewrite <- Hr.
    apply (Hother (λ _, (reverse auditLog, None)) (λ s, reverse (elements s))
             (reverse auditLog)).
    + intros s. apply reverse_Permutation.
    + reflexivity.
    + apply reverse_Permutation.
Defined.

(** *** The client of a repository *)

(** X23. [NewClientInstallationByRepo] returns a target only together with a
    nil error, and then it is the target that [SearchRepo] found, the
    installation was looked up for that target's scope and the client is
    the one made for that installation. When a step fails, client and
    target are nil and the error wraps the step's. It panics exactly when
    [SearchRepo] returns neither a target nor an error. *)
Theorem NewClientInstallationByRepo_outcomes (Client : Type)
    (SearchRepo : string → option Target.t * option error)
    (IsInstalledGitHubApp : string → Z * option error)
    (NewClientInstallation : Z → option Client * option error) (repo : string) :
  let call :=
    NewClientInstallationByRepo Client SearchRepo IsInstalledGitHubApp
      NewClientInstallation repo in
  (call = Panics ↔ SearchRepo repo = (None, None))
  ∧ ∀ client target err, call = Returns (client, target, err) →
      (err = None
       ∧ ∃ found installationID,
           target = Some found
           ∧ SearchRepo repo = (Some found, None)
           ∧ IsInstalledGitHubApp (Target.Scope found) = (installationID, None)
           ∧ NewClientInstallation installationID = (client, None))
      ∨ (client = None ∧ target = None
         ∧ ∃ e cause, err = Some e ∧ errors_Is e cause = true
             ∧ (SearchRepo repo = (None, Some cause) ∨ (∃ t, SearchRepo repo = (Some t, Some cause))
                ∨ (∃ found id, SearchRepo repo = (Some found, None)
                     ∧ (IsInstalledGitHubApp (Target.Scope found) = (id, Some cause)
                        ∨ (IsInstalledGitHubApp (Target.Scope found) = (id, None)
                           ∧ ∃ c, NewClientInstallation id = (c, Some cause)))))).
Proof.
  cbn zeta. unfold NewClientInstallationByRepo.
  destruct (SearchRepo repo) as [[found|] [e1|]] eqn:Hs.
  - split; [done|]. intros client target err [= <- <- <-]. right.
    do 2 (split; [done|]). exists (ErrWrap "failed to search repository" e1), e1.
    split; [done|]. split; [apply MySQLExtra.errors_Is_wrap, MySQLExtra.errors_Is_refl|].
    right. left. by exists found.
  - destruct (IsInstalledGitHubApp (Target.Scope found)) as [id [e2|]] eqn:Hi.
    + split; [done|]. intros client target err [= <- <- <-]. right.
      do 2 (split; [done|]). exists (ErrWrap "failed to get installation ID" e2), e2.
      split; [done|]. split; [apply MySQLExtra.errors_Is_wrap, MySQLExtra.errors_Is_refl|].
      right. right. exists found, id. split; [done|]. by left.
    + destruct (NewClientInstallation id) as [c [e3|]] eqn:Hn.
      * split; [done|]. intros client target err [= <- <- <-]. right.
        do 2 (split; [done|]). exists (ErrWrap "failed to create client" e3), e3.
        split; [done|]. split; [apply MySQLExtra.errors_Is_wrap, MySQLExtra.errors_Is_refl|].
        right. right. exists found, id. split; [done|]. right. split; [done|]. by exists c.
      * split; [done|]. intros client target err [= <- <- <-]. left.
        split; [done|]. by exists found, id.
  - split; [done|]. intros client target err [= <- <- <-]. right.
    do 2 (split; [done|]). exists (ErrWrap "failed to search repository" e1), e1.
    split; [done|]. split; [apply MySQLExtra.errors_Is_wrap, MySQLExtra.errors_Is_refl|].
    by left.
  - split; [done|]. discriminate.
Qed.

Lemma NewClientInstallationByRepo_outcomes_witness :
  (∃ e, NewClientInstallationByRepo Z searchSample installedSample clientSample
          "acme/old" = Returns (None, None, Some e)
        ∧ errors_Is e ErrNotFound = true)
  ∧ NewClientInstallationByRepo Z (λ _, (None, None)) installedSample clientSample
      "acme/new" = Panics.
Proof.
  split.
  - destruct (NewClientInstallationByRepo_outcomes Z searchSample installedSample
                clientSample "acme/old") as [_ H].
    destruct (H None None (Some (ErrWrap "failed to search repository" ErrNotFound))
                eq_refl) as [[Hnil _]|(_ & _ & e & cause & He & His & _)];
      [discriminate Hnil|].
    exists (ErrWrap "failed to search repository" ErrNotFound). split; reflexivity.
  - destruct (NewClientInstallationByRepo_outcomes Z (λ _, (None, None)) installedSample
                clientSample "acme/new") as [[_ H] _].
    apply H. reflexivity.
Defined.

(** *** The sweep over the repositories *)

Section SweepLoop.
Variable Client : Type.
Variable SearchRepo : string → option Target.t * option error.
Variable IsInstalledGitHubApp : string → Z * option error.
Variable NewClientInstallation : Z → option Client * option error.
Variable rnd : Q → Q.
Hypothesis Hrnd : Float64Rounding rnd.
Variable clock : nat → nat → Time.
Variable urlParse : string → string + error.
Variable DivideScope : string → string * string.
Variable ListWorkflowRunsNewestOneHundred :
  option Client → string → string → list (option WorkflowRun.t) * option error.

#[local] Abbreviation loop :=
  (sweepLoop Client SearchRepo IsInstalledGitHubApp NewClientInstallation rnd clock
     urlParse DivideScope ListWorkflowRunsNewestOneHundred).
#[local] Abbreviation swept :=
  (sweptAt Client SearchRepo IsInstalledGitHubApp NewClientInstallation clock
     urlParse DivideScope ListWorkflowRunsNewestOneHundred).

(** One round of the loop either panics or appends the pairs due to the
    repository. *)
Lemma sweepLoop_step (k : nat) (rawURL : string) :
  (∀ rest acc, loop k (rawURL :: rest) acc = Panics)
  ∨ ∃ contribution,
      (∀ rest acc, loop k (rawURL :: rest) acc = loop (S k) rest (acc ++ contribution))
      ∧ ∀ p, p ∈ contribution ↔ swept k rawURL p.
Proof.
  assert (Hskip : (∀ p, ¬ swept k rawURL p) →
            (∀ rest acc, loop k (rawURL :: rest) acc = loop (S k) rest acc) →
            ∃ contribution,
              (∀ rest acc, loop k (rawURL :: rest) acc
                           = loop (S k) rest (acc ++ contribution))
              ∧ ∀ p, p ∈ contribution ↔ swept k rawURL p).
  { intros Hno Hstep. exists []. split.
    - intros rest acc. by rewrite app_nil_r.
    - intros p. split; [by intros ?%elem_of_nil|]. intros Hs. by destruct (Hno p). }
  destruct (urlParse rawURL) as [path|e] eqn:Hparse.
  2:{ right. apply Hskip.
      - intros p (path & ? & ? & ? & ? & Hp & _). congruence.
      - intros rest acc. cbn [sweepLoop]. by rewrite Hparse. }
  destruct (NewClientInstallationByRepo Client SearchRepo IsInstalledGitHubApp
              NewClientInstallation (TrimPrefix path "/"))
    as [[[client target] [e|]]|] eqn:Hclient.
  3:{ left. intros rest acc. cbn [sweepLoop]. by rewrite Hparse, Hclient. }
  1:{ right. apply Hskip.
      - intros p (path' & ? & ? & ? & ? & Hp & Hc & _).
        rewrite Hparse in Hp. injection Hp as <-. congruence.
      - intros rest acc. cbn [sweepLoop]. by rewrite Hparse, Hclient. }
  destruct (DivideScope (TrimPrefix path "/")) as [owner repo] eqn:Hdiv.
  destruct (ListWorkflowRunsNewestOneHundred client owner repo) as [runs [e|]] eqn:Hlist.
  1:{ right. apply Hskip.
      - intros p (path' & client' & ? & ? & ? & Hp & Hc & Hl & _).
        rewrite Hparse in Hp. injection Hp as <-.
        rewrite Hclient in Hc. injection Hc as <- _.
        rewrite Hdiv in Hl. cbn [fst snd] in Hl. congruence.
      - intros rest acc. cbn [sweepLoop]. by rewrite Hparse, Hclient, Hdiv, Hlist. }
  destruct (pendingLoop rnd (clock k) 0 runs []) as [selected|] eqn:Hloop.
  2:{ left. intros rest acc. cbn [sweepLoop].
      rewrite Hparse, Hclient, Hdiv, Hlist. unfold getPendingRunByRepo. by rewrite Hloop. }
  right. exists (map (PendingWorkflowRunWithTarget.Build target) selected). split.
  { intros rest acc. cbn [sweepLoop].
    rewrite Hparse, Hclient, Hdiv, Hlist. unfold getPendingRunByRepo. by rewrite Hloop. }
  destruct (pendingLoop_spec rnd Hrnd (clock k) runs 0 []) as (sel & Hsel & Hin).
  { intros r Hr Hq. destruct (createdAt r) eqn:Hc; [by eexists|]. exfalso.
    assert (Hp : pendingLoop rnd (clock k) 0 runs [] = Panics)
      by (apply pendingLoop_Panics; by exists r).
    congruence. }
  rewrite Hloop in Hsel. injection Hsel as ->. cbn [app] in Hin.
  intros [t r]. rewrite list_elem_of_fmap. split.
  - intros (r' & [= -> ->] & Hr). apply Hin in Hr as (j & created & Hj & Hq & Hc & Hle).
    exists path, client, runs, j, created.
    cbn [PendingWorkflowRunWithTarget.Target PendingWorkflowRunWithTarget.WorkflowRun].
    rewrite Hdiv. repeat split; try done. by apply queuedOrPending_iff.
  - intros (path' & client' & runs' & j & created & Hp & Hc & Hl & Hj & Hq & Hcr & Hle).
    cbn [PendingWorkflowRunWithTarget.Target PendingWorkflowRunWithTarget.WorkflowRun] in *.
    rewrite Hparse in Hp. injection Hp as <-.
    rewrite Hclient in Hc. injection Hc as <- <-.
    rewrite Hdiv in Hl. cbn [fst snd] in Hl. rewrite Hlist in Hl. injection Hl as <-.
    exists r. split; [done|]. apply Hin. exists j, created.
    repeat split; try done. by apply queuedOrPending_iff.
Qed.

Lemma sweepLoop_spec (repositories : list string) :
  ∀ (k : nat) (acc out : list PendingWorkflowRunWithTarget.t),
  loop k repositories acc = Returns out →
  ∃ added, out = acc ++ added
           ∧ ∀ p, p ∈ added ↔
                  ∃ i rawURL, repositories !! i = Some rawURL
                              ∧ swept (k + i)%nat rawURL p.
Proof.
  induction repositories as [|rawURL rest IH]; intros k acc out.
  - intros [= <-]. exists []. rewrite app_nil_r. split; [done|].
    intros p. split; [by intros ?%elem_of_nil|]. by intros (i & ? & ? & _).
  - destruct (sweepLoop_step k rawURL) as [Hpanic|(contribution & Hstep & Hc)].
    + by rewrite Hpanic.
    + rewrite Hstep. intros Hl. destruct (IH _ _ _ Hl) as (added & -> & Hadded).
      exists (contribution ++ added). rewrite app_assoc. split; [done|].
      intros p. rewrite elem_of_app, Hc, Hadded. split.
      * intros [Hs|(i & u & Hi & Hs)].
        -- exists 0%nat, rawURL. by rewrite Nat.add_0_r.
        -- exists (S i), u. by rewrite <- Nat.add_succ_comm.
      * intros ([|i] & u & Hi & Hs).
        -- left. injection Hi as <-. by rewrite Nat.add_0_r in Hs.
        -- right. exists i, u. by rewrite <- Nat.add_succ_comm in Hs.
Qed.
End SweepLoop.

(** X24. What [GetPendingWorkflowRunByRecentRepositories] returns, when it
    returns: an error only if the enumeration of the repositories failed,
    then with no pair; otherwise exactly the pairs due to the enumerated
    repositories, each pairing a target with a run that is listed for that
    target's repository, queued or pending, and at least 30 minutes old.
    A repository whose URL does not parse, for which no client is made or
    whose runs cannot be listed contributes no pair and does not keep the
    others from contributing. *)
Theorem GetPendingWorkflowRun_spec (Client : Type)
    (SearchRepo : string → option Target.t * option error)
    (IsInstalledGitHubApp : string → Z * option error)
    (NewClientInstallation : Z → option Client * option error)
    (rnd : Q → Q) (clock : nat → nat → Time)
    (urlParse : string → string + error) (DivideScope : string → string * string)
    (ListWorkflowRunsNewestOneHundred :
       option Client → string → string → list (option WorkflowRun.t) * option error)
    (now : Time) (ListRunnersLogBySince : Time → list Runner.t * option error)
    (rangeKeys : gset string → list string)
    (result : list PendingWorkflowRunWithTarget.t) (err : option error) :
  Float64Rounding rnd →
  GetPendingWorkflowRunByRecentRepositories Client SearchRepo IsInstalledGitHubApp
    NewClientInstallation rnd clock urlParse DivideScope
    ListWorkflowRunsNewestOneHundred now ListRunnersLogBySince rangeKeys
  = Returns (result, err) →
  let repositories := getRecentRepositories now ListRunnersLogBySince rangeKeys in
  (∀ e, err = Some e →
     result = [] ∧ ∃ cause, repositories.2 = Some cause ∧ errors_Is e cause = true)
  ∧ (err = None →
     repositories.2 = None
     ∧ ∀ p, p ∈ result ↔
            ∃ k rawURL, repositories.1 !! k = Some rawURL
                        ∧ sweptAt Client SearchRepo IsInstalledGitHubApp
                            NewClientInstallation clock urlParse DivideScope
                            ListWorkflowRunsNewestOneHundred k rawURL p).
Proof.
  intros Hrnd. unfold GetPendingWorkflowRunByRecentRepositories. cbn zeta.
  destruct (getRecentRepositories now ListRunnersLogBySince rangeKeys)
    as [repositories [cause|]]; cbn [fst snd].
  - intros [= <- <-]. split; [|discriminate].
    intros e [= <-]. split; [done|]. exists cause. split; [done|].
    apply MySQLExtra.errors_Is_wrap, MySQLExtra.errors_Is_refl.
  - destruct (sweepLoop _ _ _ _ _ _ _ _ _ 0 repositories []) as [out|] eqn:Hl;
      [|discriminate].
    intros [= <- <-]. split; [discriminate|]. intros _. split; [done|].
    destruct (sweepLoop_spec Client SearchRepo IsInstalledGitHubApp NewClientInstallation
                rnd Hrnd clock urlParse DivideScope ListWorkflowRunsNewestOneHundred
                repositories 0 [] out Hl) as (added & -> & Hadded).
    done.
Qed.

Lemma GetPendingWorkflowRun_spec_witness :
  let target := activeTarget 1%N "acme" "ghe.example.com" in
  let pair := PendingWorkflowRunWithTarget.Build (Some target) (run 11 "queued" 60) in
  ∃ k rawURL,
    (getRecentRepositories (3 * Hour) logSince elements).1 !! k = Some rawURL
    ∧ sweptAt Z searchSample installedSample clientSample (λ _ _, 100 * Minute)
        parseSample divideSample listSample k rawURL pair.
Proof.
  intros target pair.
  destruct (GetPendingWorkflowRun_spec Z searchSample installedSample clientSample
              (λ q, q) (λ _ _, 100 * Minute) parseSample divideSample listSample
              (3 * Hour) logSince elements [pair] None exact_rounding) as [_ H].
  - vm_compute. reflexivity.
  - destruct (H eq_refl) as [_ Hin]. apply Hin. by left.
Defined.

End DatastoreExtra.

(** ** The scraper of the in-process gauges *)

Module MetricExtra.
Import prometheus metric Scenarios.

Lemma send_Returns (m : Metric.t) (ch : list Metric.t) :
  send (Returns m) ch = Returns (tt, ch ++ [m]).
Proof. reflexivity. Qed.

Lemma sendAll_Returns {K V : Type} (f : K → V → outcome Metric.t)
    (g : K → V → Metric.t) (visited : list (K * V)) :
  (∀ k v, (k, v) ∈ visited → f k v = Returns (g k v)) →
  ∀ ch, sendAll f visited ch = Returns (tt, ch ++ map (λ kv, g kv.1 kv.2) visited).
Proof.
  induction visited as [|[k v] rest IH]; intros Hf ch; cbn [sendAll map].
  - by rewrite app_nil_r.
  - unfold mbind, Sender_bind. rewrite (Hf k v) by (by left).
    rewrite send_Returns, IH by (intros; apply Hf; by right).
    by rewrite <- app_assoc.
Qed.

Lemma sendAll_Panics {K V : Type} (f : K → V → outcome Metric.t)
    (visited : list (K * V)) :
  (∃ k v, (k, v) ∈ visited ∧ f k v = Panics) →
  ∀ ch, sendAll f visited ch = Panics.
Proof.
  induction visited as [|[k0 v0] rest IH]; intros (k & v & Hin & Hbad) ch.
  - by apply elem_of_nil in Hin.
  - cbn [sendAll]. unfold mbind, Sender_bind.
    destruct (f k0 v0) as [m|] eqn:Hhead; [|done].
    rewrite send_Returns. apply IH.
    apply elem_of_cons in Hin as [[= -> ->]|Hin]; [congruence|by exists k, v].
Qed.

Lemma sendAll_cases {K V : Type} (f : K → V → outcome Metric.t)
    (visited : list (K * V)) :
  ∀ ch, sendAll f visited ch = Panics ∨ ∃ ch', sendAll f visited ch = Returns (tt, ch').
Proof.
  induction visited as [|[k v] rest IH]; intros ch; cbn [sendAll].
  - right. by eexists.
  - unfold mbind, Sender_bind. destruct (f k v) as [m|]; [|by left].
    rewrite send_Returns. apply IH.
Qed.

Section Scraped.
Variable namespace : string.
Variable rnd : Q → Q.
Variable descErr : Desc.t → bool.
Variables MaxConnectionsToBackend MaxConcurrencyDeleting : Z.
Variables CountRunning CountWaiting ConcurrencyDeleting : Z.
Variables GetRateLimitRemain GetRateLimitLimit : gmap string Z.
Variable rangeScopes : gmap string Z → list (string * Z).

Lemma gauge_Returns (desc : Desc.t) (n : Z) (label : string) :
  descErr desc = false →
  length (Desc.variableLabels desc) = 1%nat →
  ValidString label = true →
  gauge rnd descErr desc n label = Returns (gaugeMetric rnd desc n label).
Proof.
  intros Herr Hl Hv. unfold gauge, MustNewConstMetric. rewrite Herr, Hl.
  rewrite bool_decide_eq_true_2 by done. cbn. by rewrite Hv.
Qed.

Lemma gauge_Panics (desc : Desc.t) (n : Z) (label : string) :
  ValidString label = false → gauge rnd descErr desc n label = Panics.
Proof.
  intros Hv. unfold gauge, MustNewConstMetric.
  destruct (descErr desc); [done|].
  destruct (negb (bool_decide _)); [done|]. cbn. by rewrite Hv.
Qed.

Lemma scrapeStarterValues_cases (ch : list Metric.t) :
  scrapeStarterValues namespace rnd descErr MaxConnectionsToBackend
    MaxConcurrencyDeleting CountRunning CountWaiting ConcurrencyDeleting ch = Panics
  ∨ ∃ ch', scrapeStarterValues namespace rnd descErr MaxConnectionsToBackend
             MaxConcurrencyDeleting CountRunning CountWaiting ConcurrencyDeleting ch
           = Returns (None, ch').
Proof.
  unfold scrapeStarterValues, mbind, Sender_bind, mret, Sender_ret. cbn zeta.
  repeat (destruct (gauge _ _ _ _ _) as [?|]; [rewrite send_Returns|by left]).
  right. by eexists.
Qed.

Lemma scrapeGitHubValues_cases (ch : list Metric.t) :
  scrapeGitHubValues namespace rnd descErr GetRateLimitRemain GetRateLimitLimit
    rangeScopes ch = Panics
  ∨ ∃ ch', scrapeGitHubValues namespace rnd descErr GetRateLimitRemain
             GetRateLimitLimit rangeScopes ch = Returns (None, ch').
Proof.
  unfold scrapeGitHubValues, mbind, Sender_bind, mret, Sender_ret. cbn zeta.
  destruct (sendAll_cases
              (λ scope remain,
                 gauge rnd descErr (memoryGitHubRateLimitRemaining namespace) remain scope)
              (rangeScopes GetRateLimitRemain) ch) as [->|[ch1 ->]]; [by left|].
  destruct (sendAll_cases
              (λ scope limit,
                 gauge rnd descErr (memoryGitHubRateLimitLimiting namespace) limit scope)
              (rangeScopes GetRateLimitLimit) ch1) as [->|[ch2 ->]]; [by left|].
  right. by eexists.
Qed.

Lemma scrapeStarterValues_eq (ch : list Metric.t) :
  (∀ d, d ∈ descriptors namespace → descErr d = false) →
  scrapeStarterValues namespace rnd descErr MaxConnectionsToBackend
    MaxConcurrencyDeleting CountRunning CountWaiting ConcurrencyDeleting ch
  = Returns (None,
      ch ++ [gaugeMetric rnd (memoryStarterMaxRunning namespace)
               MaxConnectionsToBackend "starter";
             gaugeMetric rnd (memoryStarterQueueRunning namespace) CountRunning "starter";
             gaugeMetric rnd (memoryStarterQueueWaiting namespace) CountWaiting "starter";
             gaugeMetric rnd (memoryRunnerMaxConcurrencyDeleting namespace)
               MaxConcurrencyDeleting "runner";
             gaugeMetric rnd (memoryRunnerQueueConcurrencyDeleting namespace)
               ConcurrencyDeleting "runner"]).
Proof.
  intros Hok. unfold scrapeStarterValues. cbn zeta.
  rewrite !gauge_Returns
    by (try reflexivity; apply Hok; unfold descriptors;
        repeat first [by left | right]).
  unfold mbind, Sender_bind, mret, Sender_ret. rewrite !send_Returns.
  by rewrite <- !app_assoc.
Qed.

Lemma scrapeGitHubValues_eq (ch : list Metric.t) :
  (∀ d, d ∈ descriptors namespace → descErr d = false) →
  (∀ scope n, (scope, n) ∈ rangeScopes GetRateLimitRemain → ValidString scope = true) →
  (∀ scope n, (scope, n) ∈ rangeScopes GetRateLimitLimit → ValidString scope = true) →
  scrapeGitHubValues namespace rnd descErr GetRateLimitRemain GetRateLimitLimit
    rangeScopes ch
  = Returns (None,
      ch ++ map (λ kv, gaugeMetric rnd (memoryGitHubRateLimitRemaining namespace) kv.2 kv.1)
              (rangeScopes GetRateLimitRemain)
         ++ map (λ kv, gaugeMetric rnd (memoryGitHubRateLimitLimiting namespace) kv.2 kv.1)
              (rangeScopes GetRateLimitLimit)).
Proof.
  intros Hok Hr Hl.
  unfold scrapeGitHubValues, mbind, Sender_bind, mret, Sender_ret. cbn zeta.
  rewrite (sendAll_Returns _
             (λ scope n, gaugeMetric rnd (memoryGitHubRateLimitRemaining namespace) n scope)).
  2:{ intros scope n Hin. apply gauge_Returns; [|reflexivity|by apply (Hr scope n)].
      apply Hok. unfold descriptors. repeat first [by left | right]. }
  rewrite (sendAll_Returns _
             (λ scope n, gaugeMetric rnd (memoryGitHubRateLimitLimiting namespace) n scope)).
  2:{ intros scope n Hin. apply gauge_Returns; [|reflexivity|by apply (Hl scope n)].
      apply Hok. unfold descriptors. repeat first [by left | right]. }
  by rewrite <- app_assoc.
Qed.
End Scraped.

(** X25. [Scrape] never returns an error: it returns nil or panics. It
    panics when a scope of one of the two rate-limit maps is not valid
    UTF-8, as the gauge labelled with it cannot be built. When no
    descriptor carries an error and every scope is valid UTF-8, it returns
    and sends, after what was sent before, the five gauges of the starter
    and of the runner manager in the order of the code, then one gauge of
    the remaining rate limit per entry of that map and one gauge of the
    rate limit per entry of that map, each labelled with the scope and
    carrying the counter. *)
Theorem Scrape_emits (namespace : string) (rnd : Q → Q) (descErr : Desc.t → bool)
    (MaxConnectionsToBackend MaxConcurrencyDeleting : Z)
    (CountRunning CountWaiting ConcurrencyDeleting : Z)
    (GetRateLimitRemain GetRateLimitLimit : gmap string Z)
    (rangeScopes : gmap string Z → list (string * Z)) (ch : list Metric.t) :
  scope_range rangeScopes →
  let call :=
    Scrape namespace rnd descErr MaxConnectionsToBackend MaxConcurrencyDeleting
      CountRunning CountWaiting ConcurrencyDeleting GetRateLimitRemain
      GetRateLimitLimit rangeScopes ch in
  (∀ err ch', call = Returns (err, ch') → err = None)
  ∧ ((∃ scope n, (GetRateLimitRemain !! scope = Some n
                  ∨ GetRateLimitLimit !! scope = Some n)
                 ∧ ValidString scope = false) →
     call = Panics)
  ∧ ((∀ d, d ∈ descriptors namespace → descErr d = false) →
     (∀ scope n, GetRateLimitRemain !! scope = Some n → ValidString scope = true) →
     (∀ scope n, GetRateLimitLimit !! scope = Some n → ValidString scope = true) →
     ∃ remaining limiting,
       call
       = Returns (None,
           ch ++ [gaugeMetric rnd (memoryStarterMaxRunning namespace)
                    MaxConnectionsToBackend "starter";
                  gaugeMetric rnd (memoryStarterQueueRunning namespace)
                    CountRunning "starter";
                  gaugeMetric rnd (memoryStarterQueueWaiting namespace)
                    CountWaiting "starter";
                  gaugeMetric rnd (memoryRunnerMaxConcurrencyDeleting namespace)
                    MaxConcurrencyDeleting "runner";
                  gaugeMetric rnd (memoryRunnerQueueConcurrencyDeleting namespace)
                    ConcurrencyDeleting "runner"]
              ++ remaining ++ limiting)
       ∧ length remaining = size GetRateLimitRemain
       ∧ length limiting = size GetRateLimitLimit
       ∧ (∀ m, m ∈ remaining ↔
               ∃ scope n, GetRateLimitRemain !! scope = Some n
                          ∧ m = gaugeMetric rnd (memoryGitHubRateLimitRemaining namespace)
                                  n scope)
       ∧ (∀ m, m ∈ limiting ↔
               ∃ scope n, GetRateLimitLimit !! scope = Some n
                          ∧ m = gaugeMetric rnd (memoryGitHubRateLimitLimiting namespace)
                                  n scope)).
Proof.
  intros Hrange. cbn zeta.
  assert (Hin : ∀ (counters : gmap string Z) scope n,
            (scope, n) ∈ rangeScopes counters ↔ counters !! scope = Some n).
  { intros counters scope n. rewrite (Hrange counters). apply elem_of_map_to_list. }
  split; [|split].
  - intros err ch'. unfold Scrape, mbind, Sender_bind, mret, Sender_ret.
    destruct (scrapeStarterValues_cases namespace rnd descErr MaxConnectionsToBackend
                MaxConcurrencyDeleting CountRunning CountWaiting ConcurrencyDeleting ch)
      as [->|[ch1 ->]]; [discriminate|].
    destruct (scrapeGitHubValues_cases namespace rnd descErr GetRateLimitRemain
                GetRateLimitLimit rangeScopes ch1) as [->|[ch2 ->]]; [discriminate|].
    by intros [= <- _].
  - intros (scope & n & Hl & Hbad).
    unfold Scrape, mbind, Sender_bind, mret, Sender_ret.
    destruct (scrapeStarterValues_cases namespace rnd descErr MaxConnectionsToBackend
                MaxConcurrencyDeleting CountRunning CountWaiting ConcurrencyDeleting ch)
      as [->|[ch1 ->]]; [done|].
    unfold scrapeGitHubValues, mbind, Sender_bind, mret, Sender_ret. cbn zeta.
    destruct Hl as [Hl|Hl].
    + rewrite sendAll_Panics; [done|]. exists scope, n.
      split; [by apply Hin|by apply gauge_Panics].
    + destruct (sendAll_cases
                  (λ scope remain,
                     gauge rnd descErr (memoryGitHubRateLimitRemaining namespace)
                       remain scope)
                  (rangeScopes GetRateLimitRemain) ch1) as [->|[ch2 ->]]; [done|].
      rewrite sendAll_Panics; [done|]. exists scope, n.
      split; [by apply Hin|by apply gauge_Panics].
  - intros Hok Hr Hl.
    assert (Hmem : ∀ (desc : Desc.t) (counters : gmap string Z) (m : Metric.t),
              m ∈ map (λ kv, gaugeMetric rnd desc kv.2 kv.1) (rangeScopes counters)
              ↔ ∃ scope n, counters !! scope = Some n ∧ m = gaugeMetric rnd desc n scope).
    { intros desc counters m.
      change (map ?f ?l) with (f <$> l). rewrite list_elem_of_fmap. split.
      - intros ([scope n] & -> & Hi). exists scope, n. split; [by apply Hin|done].
      - intros (scope & n & Hi & ->). exists (scope, n). split; [done|by apply Hin]. }
    exists (map (λ kv, gaugeMetric rnd (memoryGitHubRateLimitRemaining namespace) kv.2 kv.1)
              (rangeScopes GetRateLimitRemain)),
      (map (λ kv, gaugeMetric rnd (memoryGitHubRateLimitLimiting namespace) kv.2 kv.1)
         (rangeScopes GetRateLimitLimit)).
    split; [|split; [|split; [|split]]].
    + unfold Scrape, mbind, Sender_bind, mret, Sender_ret.
      rewrite scrapeStarterValues_eq by done.
      rewrite scrapeGitHubValues_eq; [|done|..].
      * do 2 f_equal. rewrite <- !app_assoc. reflexivity.
      * intros scope n Hi. apply (Hr scope n). by apply Hin.
      * intros scope n Hi. apply (Hl scope n). by apply Hin.
    + by rewrite length_map, (Hrange GetRateLimitRemain), length_map_to_list.
    + by rewrite length_map, (Hrange GetRateLimitLimit), length_map_to_list.
    + apply Hmem.
    + apply Hmem.
Qed.

Lemma Scrape_emits_witness :
  (∃ remaining limiting,
     Scrape "myshoes" (λ q, q) noDescErr 50 1 3 2 0 remainSample limitSample
       map_to_list []
     = Returns (None,
         [] ++ [gaugeMetric (λ q, q) (memoryStarterMaxRunning "myshoes") 50 "starter";
                gaugeMetric (λ q, q) (memoryStarterQueueRunning "myshoes") 3 "starter";
                gaugeMetric (λ q, q) (memoryStarterQueueWaiting "myshoes") 2 "starter";
                gaugeMetric (λ q, q) (memoryRunnerMaxConcurrencyDeleting "myshoes") 1
                  "runner";
                gaugeMetric (λ q, q) (memoryRunnerQueueConcurrencyDeleting "myshoes") 0
                  "runner"]
            ++ remaining ++ limiting)
     ∧ length remaining = size remainSample
     ∧ length limiting = size limitSample)
  ∧ Scrape "myshoes" (λ q, q) noDescErr 50 1 3 2 0 {[ badScope := 7 ]} limitSample
      map_to_list [] = Panics.
Proof.
  split.
  - destruct (Scrape_emits "myshoes" (λ q, q) noDescErr 50 1 3 2 0 remainSample
                limitSample map_to_list []) as (_ & _ & H).
    { intros m. reflexivity. }
    destruct H as (remaining & limiting & H1 & H2 & H3 & _).
    + reflexivity.
    + intros scope n Hl. unfold remainSample in Hl.
      apply lookup_insert_Some in Hl as [[<- _]|[_ Hl]]; [reflexivity|].
      apply lookup_singleton_Some in Hl as [<- _]. reflexivity.
    + intros scope n Hl. unfold limitSample in Hl.
      apply lookup_singleton_Some in Hl as [<- _]. reflexivity.
    + exists remaining, limiting. split; [exact H1|]. split; [exact H2|exact H3].
  - destruct (Scrape_emits "myshoes" (λ q, q) noDescErr 50 1 3 2 0 {[ badScope := 7 ]}
                limitSample map_to_list []) as (_ & H & _).
    { intros m. reflexivity. }
    apply H. exists badScope, 7. split; [left; apply lookup_singleton_eq|reflexivity].
Defined.

(** [ValidString] on well-formed and on ill-formed sequences: two-, three-
    and four-byte characters; an overlong form, a surrogate, a value above
    U+10FFFF, a lone continuation byte and a truncated character. *)
Example ValidString_samples :
  ValidString "acme/widget" = true
  ∧ ValidString (ofBytes [195; 169]%N) = true
  ∧ ValidString (ofBytes [226; 130; 172]%N) = true
  ∧ ValidString (ofBytes [240; 159; 152; 128]%N) = true
  ∧ ValidString (ofBytes [192; 128]%N) = false
  ∧ ValidString (ofBytes [237; 160; 128]%N) = false
  ∧ ValidString (ofBytes [244; 144; 128; 128]%N) = false
  ∧ ValidString (ofBytes [128]%N) = false
  ∧ ValidString (ofBytes [226; 130]%N) = false
  ∧ ValidString badScope = false.
Proof. repeat split; vm_compute; reflexivity. Qed.

(** *** The names of the gauges *)

Lemma BuildFQName_memory_inj (namespace x y : string) :
  x ≠ EmptyString → y ≠ EmptyString →
  BuildFQName namespace memoryName x = BuildFQName namespace memoryName y →
  x = y.
Proof.
  intros Hx Hy. unfold BuildFQName, memoryName.
  rewrite !(bool_decide_eq_false_2 (_ = EmptyString)) by done.
  rewrite (bool_decide_eq_true_2 ("memory" ≠ EmptyString)) by done.
  destruct (decide (namespace = EmptyString)) as [->|Hns].
  - rewrite !(bool_decide_eq_false_2 (EmptyString ≠ EmptyString)) by (intros H; by apply H).
    cbn [andb]. intros H.
    by apply (inj (String.append "memory")), (inj (String.append "_")) in H.
  - rewrite !(bool_decide_eq_true_2 (namespace ≠ EmptyString)) by done.
    cbn [andb]. intros H.
    by apply (inj (String.append namespace)), (inj (String.append "_")),
      (inj (String.append "memory")), (inj (String.append "_")) in H.
Qed.

Lemma BuildFQName_memory_nonempty (namespace x : string) :
  x ≠ EmptyString → BuildFQName namespace memoryName x ≠ EmptyString.
Proof.
  intros Hx. unfold BuildFQName, memoryName.
  rewrite (bool_decide_eq_false_2 (x = EmptyString)) by done.
  rewrite (bool_decide_eq_true_2 ("memory" ≠ EmptyString)) by done.
  destruct (decide (namespace = EmptyString)) as [->|Hns].
  - rewrite !(bool_decide_eq_false_2 (EmptyString ≠ EmptyString)) by (intros H; by apply H).
    cbn [andb]. discriminate.
  - rewrite !(bool_decide_eq_true_2 (namespace ≠ EmptyString)) by done.
    cbn [andb]. destruct namespace; [done|discriminate].
Qed.

(** X26. Whatever the namespace, the seven descriptors of the scraper have
    seven different fully-qualified names, none of them empty; a registry
    can tell the gauges apart by name. *)
Theorem descriptor_names_distinct (namespace : string) :
  NoDup (Desc.fqName <$> descriptors namespace)
  ∧ Forall (λ d, Desc.fqName d ≠ EmptyString) (descriptors namespace)
  ∧ length (descriptors namespace) = 7%nat.
Proof.
  assert (Hnames : Desc.fqName <$> descriptors namespace
                   = BuildFQName namespace memoryName <$> gaugeNames) by reflexivity.
  assert (Hne : Forall (λ n, n ≠ EmptyString) gaugeNames)
    by (repeat constructor; discriminate).
  rewrite Forall_forall in Hne.
  split; [|split; [|reflexivity]].
  - rewrite Hnames. apply NoDup_fmap_2_strong.
    + intros x y Hx Hy. apply BuildFQName_memory_inj; by apply Hne.
    + unfold gaugeNames. apply (bool_decide_unpack (NoDup _)). by vm_compute.
  - apply (Forall_fmap Desc.fqName (λ n, n ≠ EmptyString) (descriptors namespace)).
    rewrite Hnames. apply Forall_fmap, Forall_forall. intros n Hn.
    apply BuildFQName_memory_nonempty. by apply Hne.
Qed.

End MetricExtra.
